(** * Stock performance dashboard: a shallow embedding of [dashboard.py]

    Floating-point values are modelled as exact reals extended with the
    special values of IEEE doubles ([PInf], [NInf], [NaN]); rounding is
    not modelled.  pandas' NaN is the missing-value marker.  A DataFrame
    is a row count together with its ordered, named columns. *)

From Stdlib Require Import ZArith Reals Lra List String Bool Arith Lia Sorting.Permutation Sorting.Sorted.
Import ListNotations.
Open Scope R_scope.
Open Scope string_scope.

(** ** Floating-point values *)

Inductive fnum : Type :=
| Fin (r : R)
| PInf
| NInf
| NaN.

Definition is_nan (x : fnum) : bool :=
  match x with NaN => true | _ => false end.

Definition fneg (x : fnum) : fnum :=
  match x with
  | Fin r => Fin (- r)
  | PInf => NInf
  | NInf => PInf
  | NaN => NaN
  end.

Definition fadd (x y : fnum) : fnum :=
  match x, y with
  | NaN, _ | _, NaN => NaN
  | Fin a, Fin b => Fin (a + b)
  | PInf, NInf | NInf, PInf => NaN
  | PInf, _ | _, PInf => PInf
  | NInf, _ | _, NInf => NInf
  end.

Definition fsub (x y : fnum) : fnum := fadd x (fneg y).

(** [inf_sign pos] is the infinity of sign [pos]. *)
Definition inf_sign (pos : bool) : fnum := if pos then PInf else NInf.

(** Product of an infinity of sign [pos] with a finite [r]. *)
Definition inf_times (pos : bool) (r : R) : fnum :=
  if Req_dec_T r 0 then NaN
  else if Rlt_dec 0 r then inf_sign pos else inf_sign (negb pos).

Definition fmul (x y : fnum) : fnum :=
  match x, y with
  | NaN, _ | _, NaN => NaN
  | Fin a, Fin b => Fin (a * b)
  | PInf, Fin b | Fin b, PInf => inf_times true b
  | NInf, Fin b | Fin b, NInf => inf_times false b
  | PInf, PInf | NInf, NInf => PInf
  | PInf, NInf | NInf, PInf => NInf
  end.

(** Division; a zero divisor is the positive zero. *)
Definition fdiv (x y : fnum) : fnum :=
  match x, y with
  | NaN, _ | _, NaN => NaN
  | Fin a, Fin b =>
      if Req_dec_T b 0 then
        (if Req_dec_T a 0 then NaN
         else if Rlt_dec 0 a then PInf else NInf)
      else Fin (a / b)
  | Fin _, (PInf | NInf) => Fin 0
  | (PInf | NInf), (PInf | NInf) => NaN
  | PInf, Fin b => if Rlt_dec b 0 then NInf else PInf
  | NInf, Fin b => if Rlt_dec b 0 then PInf else NInf
  end.

Definition fsqrt (x : fnum) : fnum :=
  match x with
  | Fin r => if Rlt_dec r 0 then NaN else Fin (sqrt r)
  | PInf => PInf
  | NInf | NaN => NaN
  end.

(** Python's [x > y] on floats: false as soon as one side is NaN. *)
Definition fgt (x y : fnum) : bool :=
  match x, y with
  | NaN, _ | _, NaN => false
  | Fin a, Fin b => if Rlt_dec b a then true else false
  | PInf, PInf => false
  | PInf, _ => true
  | _, PInf => false
  | NInf, _ => false
  | Fin _, NInf => true
  end.

(** [x <= y] on non-NaN values, used to sort values for the median. *)
Definition fle (x y : fnum) : bool :=
  match x, y with
  | NaN, _ | _, NaN => false
  | NInf, _ => true
  | _, PInf => true
  | Fin a, Fin b => if Rle_dec a b then true else false
  | _, _ => false
  end.

(** ** Series operations (one DataFrame column) *)

Inductive fill_method : Type :=
| Pad       (* pandas < 3: [pct_change()] forward-fills missing prices first *)
| NoFill.   (* pandas >= 3: [fill_method=None] *)

Fixpoint ffill_from (last : fnum) (l : list fnum) : list fnum :=
  match l with
  | [] => []
  | NaN :: r => last :: ffill_from last r
  | x :: r => x :: ffill_from x r
  end.

Definition ffill (l : list fnum) : list fnum := ffill_from NaN l.

(** [shift(1)]: one NaN in front, last value dropped. *)
Definition shift1 (l : list fnum) : list fnum :=
  match l with
  | [] => []
  | _ => NaN :: removelast l
  end.

Definition pct_data (m : fill_method) (l : list fnum) : list fnum :=
  match m with Pad => ffill l | NoFill => l end.

(** [pct_change()]: [data / data.shift(1) - 1]. *)
Definition pct_change (m : fill_method) (l : list fnum) : list fnum :=
  let data := pct_data m l in
  map (fun '(x, y) => fsub (fdiv x y) (Fin 1)) (combine data (shift1 data)).

Definition fillna0 (l : list fnum) : list fnum :=
  map (fun x => if is_nan x then Fin 0 else x) l.

(** [cumprod()] with [skipna=True]: a NaN entry stays NaN and is skipped. *)
Fixpoint cumprod_from (acc : fnum) (l : list fnum) : list fnum :=
  match l with
  | [] => []
  | NaN :: r => NaN :: cumprod_from acc r
  | x :: r => let a := fmul acc x in a :: cumprod_from a r
  end.

Definition cumprod (l : list fnum) : list fnum := cumprod_from (Fin 1) l.

(** Line 76, per column: [pct_change().fillna(0)]. *)
Definition pct_col (m : fill_method) (p : list fnum) : list fnum :=
  fillna0 (pct_change m p).

(** Line 77, per column: [((1 + pct).cumprod() - 1) * 100]. *)
Definition cum_pct (pct : list fnum) : list fnum :=
  map (fun x => fmul (fsub x (Fin 1)) (Fin 100))
      (cumprod (map (fadd (Fin 1)) pct)).

Definition total_pct_col (m : fill_method) (p : list fnum) : list fnum :=
  cum_pct (pct_col m p).

(** ** DataFrames *)

Record frame : Type := mkFrame {
  nrows : nat;
  cols : list (string * list fnum)
}.

Definition map_cols (f : list fnum -> list fnum) (df : frame) : frame :=
  mkFrame (nrows df) (map (fun '(n, c) => (n, f c)) (cols df)).

(** [pct_df] and [total_pct_df] (lines 76-77). *)
Definition pct_frame (m : fill_method) (price_df : frame) : frame :=
  map_cols (pct_col m) price_df.

Definition total_pct_frame (m : fill_method) (price_df : frame) : frame :=
  map_cols cum_pct (pct_frame m price_df).

(** [df[name]]; [None] where pandas raises [KeyError]. *)
Definition lookup_col (name : string) (df : frame) : option (list fnum) :=
  match find (fun '(n, _) => String.eqb n name) (cols df) with
  | Some (_, c) => Some c
  | None => None
  end.

(** [df[name] = c]: replaces an existing column in place, else appends. *)
Definition set_col (name : string) (c : list fnum) (df : frame) : frame :=
  if existsb (fun '(n, _) => String.eqb n name) (cols df)
  then mkFrame (nrows df)
         (map (fun '(n, c0) => if String.eqb n name then (n, c) else (n, c0)) (cols df))
  else mkFrame (nrows df) (cols df ++ [(name, c)]).

Definition mem_name (n : string) (names : list string) : bool :=
  existsb (String.eqb n) names.

(** [df.drop(columns=names)]. *)
Definition drop (names : list string) (df : frame) : frame :=
  mkFrame (nrows df) (filter (fun '(n, _) => negb (mem_name n names)) (cols df)).

(** Row [i] across all columns, in column order. *)
Definition row (i : nat) (df : frame) : list fnum :=
  map (fun '(_, c) => nth i c NaN) (cols df).

(** A row-wise reduction [df.f(axis=1)]. *)
Definition row_stat (f : list fnum -> fnum) (df : frame) : list fnum :=
  map (fun i => f (row i df)) (seq 0 (nrows df)).

(** ** Row statistics (pandas' nan-skipping reductions) *)

Definition dropna (l : list fnum) : list fnum := filter (fun x => negb (is_nan x)) l.

Definition fsum (l : list fnum) : fnum := fold_left fadd l (Fin 0).

Definition nanmean (l : list fnum) : fnum :=
  let v := dropna l in
  match v with
  | [] => NaN
  | _ => fdiv (fsum v) (Fin (INR (List.length v)))
  end.

Fixpoint insert_f (x : fnum) (l : list fnum) : list fnum :=
  match l with
  | [] => [x]
  | y :: r => if fle x y then x :: y :: r else y :: insert_f x r
  end.

Definition sort_f (l : list fnum) : list fnum := fold_right insert_f [] l.

Definition nanmedian (l : list fnum) : fnum :=
  let v := sort_f (dropna l) in
  let n := List.length v in
  match n with
  | O => NaN
  | _ => if Nat.odd n then nth (n / 2) v NaN
         else fdiv (fadd (nth (n / 2 - 1) v NaN) (nth (n / 2) v NaN)) (Fin 2)
  end.

(** [DataFrame.std] uses [ddof=1] by default. *)
Definition ddof : nat := 1.

Definition nanstd (l : list fnum) : fnum :=
  let v := dropna l in
  let n := List.length v in
  if (n <=? ddof)%nat then NaN
  else
    let avg := fdiv (fsum v) (Fin (INR n)) in
    let sq := fsum (map (fun x => let d := fsub x avg in fmul d d) v) in
    fsqrt (fdiv sq (Fin (INR (n - ddof)))).

(** Lines 79-88: the four statistic columns. *)
Definition annotate (tp : frame) : frame :=
  let tp1 := set_col "mean_pct_chg" (row_stat nanmean tp) tp in
  let tp2 := set_col "median_pct_change"
               (row_stat nanmedian (drop ["mean_pct_chg"] tp1)) tp1 in
  let tp3 := set_col "std"
               (row_stat nanstd (drop ["mean_pct_chg"; "median_pct_change"] tp2)) tp2 in
  match lookup_col "std" tp3 with
  | Some s => set_col "2std" (map (fmul (Fin 2)) s) tp3
  | None => tp3
  end.

(** ** Plot filter and chart (lines 97-172) *)

Inductive filter_option : Type :=
| AllStocks        (* "All stocks" *)
| AboveMean        (* "Above mean (last value)" *)
| AboveMedian      (* "Above median (last value)" *)
| AboveStd         (* "Above std (last value)" *)
| Above2Std.       (* "Above 2 std (last value)" *)

Definition stats_cols : list string :=
  ["mean_pct_chg"; "median_pct_change"; "std"; "2std"].

Definition stock_cols (df : frame) : list string :=
  filter (fun c => negb (mem_name c stats_cols)) (map fst (cols df)).

(** [last_vals = df.iloc[-1]], read at column [name]. *)
Definition last_val (df : frame) (name : string) : fnum :=
  match lookup_col name df with
  | Some c => last c NaN
  | None => NaN
  end.

(** The body of the loop over [stock_cols] (lines 122-131). *)
Definition show (filter_opt : filter_option) (df : frame) (col : string) : bool :=
  let last_vals := last_val df in
  match filter_opt with
  | AllStocks => true
  | AboveMean => fgt (last_vals col) (last_vals "mean_pct_chg")
  | AboveMedian => fgt (last_vals col) (last_vals "median_pct_change")
  | AboveStd => fgt (last_vals col) (last_vals "std")
  | Above2Std => fgt (last_vals col) (last_vals "2std")
  end.

Definition shown_cols (filter_opt : filter_option) (df : frame) : list string :=
  filter (show filter_opt df) (stock_cols df).

Inductive style : Type :=
| Translucent (opacity : R)            (* ticker lines *)
| Dotted (width : nat) (color : string). (* reference lines *)

Record trace : Type := mkTrace {
  tr_name : string;
  tr_y : list fnum;
  tr_style : style
}.

Definition col_or_nil (name : string) (df : frame) : list fnum :=
  match lookup_col name df with Some c => c | None => [] end.

Definition stock_trace (df : frame) (col : string) : trace :=
  mkTrace col (col_or_nil col df) (Translucent (6 / 10)).

Definition reference_traces (df : frame) : list trace :=
  [mkTrace "Mean" (col_or_nil "mean_pct_chg" df) (Dotted 3 "black");
   mkTrace "Median" (col_or_nil "median_pct_change" df) (Dotted 3 "blue");
   mkTrace "Std Dev" (col_or_nil "std" df) (Dotted 3 "red");
   mkTrace "2 Std Dev" (col_or_nil "2std" df) (Dotted 3 "purple")].

(** The traces of [fig], in the order they are added. *)
Definition figure (filter_opt : filter_option) (df : frame) : list trace :=
  (map (stock_trace df) (shown_cols filter_opt df) ++ reference_traces df)%list.

(** ** The script run (lines 55-185) as a sequence of UI effects *)

Inductive effect : Type :=
| GroupTable                     (* [st.dataframe(df_group)] *)
| Warning (msg : string)         (* [st.warning] *)
| PerfTable (t : frame)          (* [st.dataframe(total_pct_df.tail(50))] *)
| Chart (traces : list trace).   (* [st.plotly_chart(fig)] *)

(** [DataFrame.empty]: some axis has length 0. *)
Definition frame_empty (df : frame) : bool :=
  (nrows df =? 0)%nat || match cols df with [] => true | _ => false end.

Definition tail_rows (k : nat) (df : frame) : frame :=
  mkFrame (Nat.min k (nrows df))
    (map (fun '(n, c) => (n, skipn (List.length c - k) c)) (cols df)).

(** One run of the script on the downloaded [price_df]; [st.stop()] ends
    the effect sequence. *)
Definition run (m : fill_method) (price_df : frame) (show_table : bool)
    (filter_opt : filter_option) : list effect :=
  GroupTable ::
  (if frame_empty price_df then
     [Warning "No price data available for selected date range."]
   else
     let total_pct_df := annotate (total_pct_frame m price_df) in
     ((if show_table then [PerfTable (tail_rows 50 total_pct_df)] else [])
      ++ [Chart (figure filter_opt total_pct_df)])%list).

(** ** Stock list preparation (lines 31-52) *)

(** A row of [stock_list.csv]: symbol and possibly missing market cap. *)
Definition fill_mcap (rows : list (string * option R)) : list (string * R) :=
  map (fun '(s, c) => (s, match c with Some v => v | None => 0 end)) rows.

(** [sort_values(by="market_cap", ascending=False)]. *)
Fixpoint insert_desc (x : string * R) (l : list (string * R)) : list (string * R) :=
  match l with
  | [] => [x]
  | y :: r => if Rle_dec (snd y) (snd x) then x :: y :: r else y :: insert_desc x r
  end.

Definition sort_desc (l : list (string * R)) : list (string * R) :=
  fold_right insert_desc [] l.

(** The order [sort_desc] is meant to produce: non-increasing caps. *)
Definition cap_ge (x y : string * R) : Prop := snd y <= snd x.

Definition prepare_stock_list (rows : list (string * option R)) : list (string * R) :=
  sort_desc (fill_mcap rows).

Definition group_size : nat := 200.

(** [math.ceil(len(stock_mcap_df) / group_size)]; the float division is
    exact for any realistic length. *)
Definition total_groups (l : list (string * R)) : nat :=
  (List.length l + (group_size - 1)) / group_size.

(** Python's normalisation of a slice bound [i] for a sequence of length [n]. *)
Definition py_index (i : Z) (n : nat) : nat :=
  if (i <? 0)%Z then Z.to_nat (Z.max 0 (i + Z.of_nat n))
  else Nat.min (Z.to_nat i) n.

(** [l.iloc[a:b]]. *)
Definition iloc_slice {A : Type} (l : list A) (a b : Z) : list A :=
  let i := py_index a (List.length l) in
  let j := py_index b (List.length l) in
  firstn (j - i) (skipn i l).

(** Lines 49-52. *)
Definition df_group (group_no : Z) (l : list (string * R)) : list (string * R) :=
  let start_idx := ((group_no - 1) * Z.of_nat group_size)%Z in
  let end_idx := (start_idx + Z.of_nat group_size)%Z in
  iloc_slice l start_idx end_idx.

(** Line 60: [[s + ".NS" for s in df_group["SYMBOL"].tolist()]]. *)
Definition symbols (g : list (string * R)) : list string :=
  map (fun '(s, _) => String.append s ".NS") g.

(** Whether a name ends in [".NS"]. *)
Fixpoint ends_NS (t : string) : bool :=
  match t with
  | EmptyString => false
  | String _ r => String.eqb t ".NS" || ends_NS r
  end.

(** The last present (non-NaN) value of a series, NaN if there is none. *)
Definition last_present (l : list fnum) : fnum :=
  fold_left (fun acc x => if is_nan x then acc else x) l NaN.

(** The reconstruction of C9, following the claim's words:
    [price[t] = price[t-1] * (1 + return[t])] from the first price, with the
    returns of [pct_df]. *)
Fixpoint rebuild_from (prev : fnum) (rets : list fnum) : list fnum :=
  match rets with
  | [] => []
  | r :: rs => let q := fmul prev (fadd (Fin 1) r) in q :: rebuild_from q rs
  end.

Definition reconstruct_prices (m : fill_method) (p : list fnum) : list fnum :=
  match p with
  | [] => []
  | p0 :: _ => p0 :: rebuild_from p0 (tl (pct_col m p))
  end.

(** Sample standard deviation ([ddof = 1]) of finite values, on reals. *)
Definition sum_R (xs : list R) : R := fold_left Rplus xs 0.

Definition sample_std_R (xs : list R) : R :=
  let n := List.length xs in
  let avg := sum_R xs / INR n in
  sqrt (sum_R (map (fun x => (x - avg) * (x - avg)) xs) / INR (n - 1)).

(** Ticker columns: no column of the cumulative matrix carries the name of
    a statistic column (the yfinance columns are ["<SYMBOL>.NS"]). *)
Definition ticker_only (tp : frame) : Prop :=
  forall x, In x (map fst (cols tp)) -> mem_name x stats_cols = false.

(** * Lemmas on the series operations *)

Lemma ffill_from_length : forall l last, List.length (ffill_from last l) = List.length l.
Proof.
  induction l as [|x l IH]; intros last; [reflexivity|].
  destruct x; simpl; f_equal; apply IH.
Qed.

Lemma pct_data_length : forall m l, List.length (pct_data m l) = List.length l.
Proof. intros [|] l; [apply ffill_from_length | reflexivity]. Qed.

Lemma nth_ffill_from : forall l last t,
  (t < List.length l)%nat ->
  nth t (ffill_from last l) NaN =
  fold_left (fun acc x => if is_nan x then acc else x) (firstn (S t) l) last.
Proof.
  induction l as [|x l IH]; intros last t Ht; simpl in Ht; [lia|].
  destruct t as [|t].
  - destruct x; reflexivity.
  - change (firstn (S (S t)) (x :: l)) with (x :: firstn (S t) l).
    destruct x; simpl; apply IH; lia.
Qed.

Lemma nth_ffill : forall l t,
  (t < List.length l)%nat -> nth t (ffill l) NaN = last_present (firstn (S t) l).
Proof. intros l t Ht. apply nth_ffill_from; exact Ht. Qed.

Lemma fold_present_app : forall l x a,
  fold_left (fun acc y => if is_nan y then acc else y) (l ++ [x]) a =
  if is_nan x then fold_left (fun acc y => if is_nan y then acc else y) l a else x.
Proof. intros. rewrite fold_left_app. reflexivity. Qed.

Lemma firstn_S_nth : forall (l : list fnum) t,
  (t < List.length l)%nat -> firstn (S t) l = (firstn t l ++ [nth t l NaN])%list.
Proof.
  induction l as [|x l IH]; intros t Ht; simpl in Ht; [lia|].
  destruct t as [|t]; [reflexivity|].
  change (firstn (S (S t)) (x :: l)) with (x :: firstn (S t) l).
  rewrite IH by lia. reflexivity.
Qed.

Lemma nth_shift1 : forall l t,
  (0 < t < List.length l)%nat -> nth t (shift1 l) NaN = nth (t - 1) l NaN.
Proof.
  intros l t Ht. destruct l as [|x l]; simpl in Ht; [lia|].
  unfold shift1. destruct t as [|t]; [lia|].
  change (nth (S t) (NaN :: removelast (x :: l)) NaN) with (nth t (removelast (x :: l)) NaN).
  replace (S t - 1)%nat with t by lia.
  assert (Hne : x :: l <> []) by discriminate.
  pose proof (app_removelast_last NaN Hne) as E.
  rewrite E at 2. rewrite app_nth1; [reflexivity|].
  assert (Hl := f_equal (@List.length fnum) E).
  remember (removelast (x :: l)) as rl eqn:Erl. clear Erl E.
  rewrite length_app in Hl. cbn [List.length] in Hl, Ht. lia.
Qed.

Lemma shift1_length : forall l, List.length (shift1 l) = List.length l.
Proof.
  intros [|x l]; [reflexivity|]. unfold shift1. cbn [List.length].
  assert (Hne : x :: l <> []) by discriminate.
  pose proof (app_removelast_last NaN Hne) as E.
  apply (f_equal (@List.length fnum)) in E.
  remember (removelast (x :: l)) as rl eqn:Erl. clear Erl.
  rewrite length_app in E. cbn [List.length] in E |- *. lia.
Qed.

Lemma pct_change_length : forall m l, List.length (pct_change m l) = List.length l.
Proof.
  intros m l. unfold pct_change. rewrite length_map, length_combine.
  rewrite shift1_length, pct_data_length. lia.
Qed.

Lemma nth_pct_change : forall m l t,
  (0 < t < List.length l)%nat ->
  nth t (pct_change m l) NaN =
  fsub (fdiv (nth t (pct_data m l) NaN) (nth (t - 1) (pct_data m l) NaN)) (Fin 1).
Proof.
  intros m l t Ht. unfold pct_change.
  change NaN with ((fun '(x, y) => fsub (fdiv x y) (Fin 1)) (NaN, NaN)) at 1.
  rewrite map_nth, combine_nth by (rewrite shift1_length; reflexivity).
  rewrite nth_shift1 by (rewrite pct_data_length; exact Ht). reflexivity.
Qed.

Lemma nth_pct_change_0 : forall m l,
  l <> [] -> nth 0 (pct_change m l) NaN = NaN.
Proof.
  intros m l Hl. unfold pct_change.
  destruct (pct_data m l) as [|x d] eqn:E.
  - apply (f_equal (@List.length fnum)) in E. rewrite pct_data_length in E.
    destruct l; [congruence | discriminate].
  - simpl. destruct x; reflexivity.
Qed.

Lemma nth_fillna0 : forall l t,
  nth t (fillna0 l) (Fin 0) = if is_nan (nth t l NaN) then Fin 0 else nth t l NaN.
Proof.
  intros l t. unfold fillna0.
  exact (map_nth (fun x => if is_nan x then Fin 0 else x) l NaN t).
Qed.

Lemma fillna0_length : forall l, List.length (fillna0 l) = List.length l.
Proof. intros. apply length_map. Qed.

Lemma nth_pct_col : forall m l t,
  (0 < t < List.length l)%nat ->
  nth t (pct_col m l) NaN =
  let r := fsub (fdiv (nth t (pct_data m l) NaN) (nth (t - 1) (pct_data m l) NaN)) (Fin 1) in
  if is_nan r then Fin 0 else r.
Proof.
  intros m l t Ht. unfold pct_col.
  rewrite nth_indep with (d' := Fin 0)
    by (rewrite fillna0_length, pct_change_length; lia).
  rewrite nth_fillna0, nth_pct_change by exact Ht. reflexivity.
Qed.

Lemma nth_ffill_present : forall l t x,
  (t < List.length l)%nat -> nth t l NaN = x -> is_nan x = false -> nth t (ffill l) NaN = x.
Proof.
  intros l t x Ht Hx Hn. rewrite nth_ffill by exact Ht.
  unfold last_present. rewrite firstn_S_nth, fold_present_app by exact Ht.
  rewrite Hx, Hn. reflexivity.
Qed.

Lemma fdiv_nan_r : forall x, fdiv x NaN = NaN.
Proof. destruct x; reflexivity. Qed.

Lemma nth_pct_data_present : forall m l t x,
  (t < List.length l)%nat -> nth t l NaN = x -> is_nan x = false ->
  nth t (pct_data m l) NaN = x.
Proof.
  intros [|] l t x Ht Hx Hn; [apply nth_ffill_present; assumption | exact Hx].
Qed.

Lemma nth_ffill_missing : forall l t,
  (0 < t < List.length l)%nat -> nth t l NaN = NaN ->
  nth t (ffill l) NaN = nth (t - 1) (ffill l) NaN.
Proof.
  intros l t Ht Hx. rewrite !nth_ffill by lia.
  replace (S (t - 1)) with t by lia.
  unfold last_present. rewrite (firstn_S_nth l t), fold_present_app by lia.
  rewrite Hx. reflexivity.
Qed.

(** The return of a present price against itself, after [fillna(0)]. *)
Lemma flat_return : forall q,
  (let r := fsub (fdiv q q) (Fin 1) in if is_nan r then Fin 0 else r) = Fin 0.
Proof.
  intros [a| | |]; simpl; try reflexivity.
  destruct (Req_dec_T a 0) as [->|Ha].
  - destruct (Req_dec_T 0 0); [reflexivity | congruence].
  - simpl. f_equal. field. exact Ha.
Qed.

(** * C1: daily returns [pct_df] *)

(** C1 (counterexample): a zero prior price followed by a positive price
    gives an infinite daily return, not 0, with or without pandas' forward
    fill: the prices [0; 5] give the return [+inf] at the second date. *)
Lemma C1_zero_prior_price_gives_inf :
  nth 1 (pct_col Pad [Fin 0; Fin 5]) NaN = PInf /\
  nth 1 (pct_col NoFill [Fin 0; Fin 5]) NaN = PInf.
Proof.
  split; cbn;
  destruct (Req_dec_T 0 0) as [_|H0]; try congruence;
  destruct (Req_dec_T 5 0) as [H5|_]; try lra;
  destruct (Rlt_dec 0 5) as [_|H5']; try lra; reflexivity.
Qed.

(** C1 (amended): for every date [t] after the first, with prices [a] at
    [t-1] and [b] at [t]: if both are present and [a <> 0] the return is
    [(b - a) / a]; if both are 0 it is 0; if [a = 0 < b] it is [+inf]
    ([fillna(0)] leaves infinities).  A missing price at [t] gives 0.  A
    missing price at [t-1] gives 0 when [pct_change] does not forward-fill;
    with the forward fill of pandas before 3.0 the return is taken against
    the last earlier present price [q] ([(b - q) / q] for [q <> 0]), and is
    0 when there is none. *)
Theorem C1_daily_return_cases : forall m p t,
  (1 <= t < List.length p)%nat ->
  let r := nth t (pct_col m p) NaN in
  (forall a b, nth (t - 1) p NaN = Fin a -> nth t p NaN = Fin b ->
     (a <> 0 -> r = Fin ((b - a) / a)) /\
     (a = 0 -> b = 0 -> r = Fin 0) /\
     (a = 0 -> 0 < b -> r = PInf)) /\
  (nth t p NaN = NaN -> r = Fin 0) /\
  (nth (t - 1) p NaN = NaN -> m = NoFill -> r = Fin 0) /\
  (forall b, nth (t - 1) p NaN = NaN -> nth t p NaN = Fin b -> m = Pad ->
     (last_present (firstn t p) = NaN -> r = Fin 0) /\
     (forall a, last_present (firstn t p) = Fin a -> a <> 0 -> r = Fin ((b - a) / a))).
Proof.
  intros m p t Ht r. unfold r. rewrite nth_pct_col by lia.
  split; [|split; [|split]].
  - intros a b Ha Hb.
    rewrite (nth_pct_data_present m p t (Fin b)) by (auto; lia).
    rewrite (nth_pct_data_present m p (t - 1) (Fin a)) by (auto; lia).
    split; [|split].
    + intros Ha0. simpl. destruct (Req_dec_T a 0) as [E|_]; [contradiction|].
      simpl. f_equal. field. exact Ha0.
    + intros -> ->. simpl. destruct (Req_dec_T 0 0); [reflexivity | congruence].
    + intros -> Hb0. simpl.
      destruct (Req_dec_T 0 0) as [_|]; [|congruence].
      destruct (Req_dec_T b 0) as [E|_]; [lra|].
      destruct (Rlt_dec 0 b) as [_|]; [reflexivity | lra].
  - intros Hb. destruct m; simpl pct_data.
    + rewrite nth_ffill_missing by (auto; lia). apply flat_return.
    + rewrite Hb. reflexivity.
  - intros Ha ->. simpl pct_data. rewrite Ha, fdiv_nan_r. reflexivity.
  - intros b Ha Hb ->. simpl pct_data.
    rewrite (nth_ffill_present p t (Fin b)) by (auto; lia).
    rewrite nth_ffill by lia. replace (S (t - 1)) with t by lia.
    split.
    + intros ->. reflexivity.
    + intros a -> Ha0. simpl. destruct (Req_dec_T a 0) as [E|_]; [contradiction|].
      simpl. f_equal. field. exact Ha0.
Qed.

Lemma C1_daily_return_cases_witness :
  (1 <= 1 < List.length [Fin 100; Fin 110])%nat /\
  nth 1 (pct_col NoFill [Fin 100; Fin 110]) NaN = Fin ((110 - 100) / 100).
Proof.
  split; [simpl; lia|].
  destruct (C1_daily_return_cases NoFill [Fin 100; Fin 110] 1) as [H _];
    [simpl; lia|].
  apply (H 100 110); [reflexivity | reflexivity | lra].
Defined.

(** * C4: the first row of [total_pct_df] *)

Lemma pct_col_head : forall m p,
  p <> [] -> exists rest, pct_col m p = Fin 0 :: rest.
Proof.
  intros m p Hp. pose proof (nth_pct_change_0 m p Hp) as H0.
  unfold pct_col. destruct (pct_change m p) as [|z rest] eqn:E.
  - apply (f_equal (@List.length fnum)) in E. rewrite pct_change_length in E.
    destruct p; [congruence | discriminate].
  - simpl in H0. subst z. exists (fillna0 rest). reflexivity.
Qed.

Lemma cum_pct_head : forall rest, exists tl, cum_pct (Fin 0 :: rest) = Fin 0 :: tl.
Proof.
  intros rest. unfold cum_pct, cumprod. simpl.
  eexists. f_equal. f_equal. ring.
Qed.

(** C4: for every price frame with at least one row whose columns have one
    value per row, every column of the cumulative-percentage-return matrix
    starts with 0.0. *)
Theorem C4_first_row_zero : forall m price_df,
  (0 < nrows price_df)%nat ->
  (forall n p, In (n, p) (cols price_df) -> List.length p = nrows price_df) ->
  forall name c, In (name, c) (cols (total_pct_frame m price_df)) ->
  hd_error c = Some (Fin 0).
Proof.
  intros m price_df Hn Hlen name c Hin.
  unfold total_pct_frame, pct_frame, map_cols in Hin. simpl in Hin.
  rewrite map_map in Hin. apply in_map_iff in Hin.
  destruct Hin as [[n p] [Heq Hin]]. injection Heq as <- <-.
  assert (Hp : p <> []).
  { intros ->. specialize (Hlen n [] Hin). simpl in Hlen. lia. }
  destruct (pct_col_head m p Hp) as [rest ->].
  destruct (cum_pct_head rest) as [tl ->]. reflexivity.
Qed.

Lemma C4_first_row_zero_witness :
  hd_error (col_or_nil "A.NS"
    (total_pct_frame Pad (mkFrame 2 [("A.NS", [Fin 100; Fin 110]); ("B.NS", [Fin 50; NaN])])))
  = Some (Fin 0).
Proof.
  apply (C4_first_row_zero Pad (mkFrame 2 [("A.NS", [Fin 100; Fin 110]); ("B.NS", [Fin 50; NaN])]))
    with (name := "A.NS").
  - simpl; lia.
  - intros n p Hin. simpl in Hin.
    destruct Hin as [E|[E|[]]]; injection E as <- <-; reflexivity.
  - left. reflexivity.
Defined.

(** * C9: rebuilding prices from the returns *)

Lemma rebuild_from_length : forall rs p0, List.length (rebuild_from p0 rs) = List.length rs.
Proof. induction rs; intros; simpl; [reflexivity | f_equal; apply IHrs]. Qed.

Lemma nth_rebuild_from : forall rs p0 t,
  (t < List.length rs)%nat ->
  nth (S t) (p0 :: rebuild_from p0 rs) NaN =
  fmul (nth t (p0 :: rebuild_from p0 rs) NaN) (fadd (Fin 1) (nth t rs NaN)).
Proof.
  induction rs as [|r rs IH]; intros p0 t Ht; simpl in Ht; [lia|].
  destruct t as [|t]; [reflexivity|].
  change (nth (S (S t)) (p0 :: rebuild_from p0 (r :: rs)) NaN)
    with (nth (S t) (fmul p0 (fadd (Fin 1) r) :: rebuild_from (fmul p0 (fadd (Fin 1) r)) rs) NaN).
  rewrite IH by lia. reflexivity.
Qed.

Lemma pct_col_length : forall m p, List.length (pct_col m p) = List.length p.
Proof. intros. unfold pct_col. rewrite fillna0_length. apply pct_change_length. Qed.

(** C9 (counterexample): the prices [0; 5] have no missing value, but the
    return at the second date is [+inf] and [0 * (1 + inf)] is NaN, so the
    reconstruction gives [0; NaN]. *)
Lemma C9_roundtrip_fails_after_zero :
  reconstruct_prices NoFill [Fin 0; Fin 5] = [Fin 0; NaN].
Proof.
  cbn.
  destruct (Req_dec_T 0 0) as [_|H0]; [|congruence].
  destruct (Req_dec_T 5 0) as [H5|_]; [lra|].
  destruct (Rlt_dec 0 5) as [_|H5']; [|lra].
  cbn. unfold inf_times. destruct (Req_dec_T 0 0) as [_|H0]; [reflexivity | congruence].
Qed.

Lemma fmul_nan_l : forall x, fmul NaN x = NaN.
Proof. destruct x; reflexivity. Qed.

Lemma nth_reconstruct_succ : forall m p t,
  (S t < List.length p)%nat ->
  nth (S t) (reconstruct_prices m p) NaN =
  fmul (nth t (reconstruct_prices m p) NaN) (fadd (Fin 1) (nth (S t) (pct_col m p) NaN)).
Proof.
  intros m p t Ht. destruct p as [|p0 ps]; [simpl in Ht; lia|].
  unfold reconstruct_prices.
  assert (Hlen : List.length (tl (pct_col m (p0 :: ps))) = List.length ps).
  { destruct (pct_col m (p0 :: ps)) eqn:E; simpl;
    apply (f_equal (@List.length fnum)) in E; rewrite pct_col_length in E; simpl in E; lia. }
  rewrite nth_rebuild_from by (rewrite Hlen; simpl in Ht; lia).
  f_equal. f_equal. destruct (pct_col m (p0 :: ps)) as [|r rs]; [destruct t|]; reflexivity.
Qed.

Lemma pct_col_present_step : forall m p t a b,
  (S t < List.length p)%nat -> nth t p NaN = Fin a -> nth (S t) p NaN = Fin b ->
  nth (S t) (pct_col m p) NaN =
  (let r := fsub (fdiv (Fin b) (Fin a)) (Fin 1) in if is_nan r then Fin 0 else r).
Proof.
  intros m p t a b Ht Ha Hb. rewrite nth_pct_col by lia.
  replace (S t - 1)%nat with t by lia.
  rewrite (nth_pct_data_present m p t (Fin a)) by (auto; lia).
  rewrite (nth_pct_data_present m p (S t) (Fin b)) by (auto; lia).
  reflexivity.
Qed.

Lemma reconstruct_nan_after : forall m p t u,
  nth t (reconstruct_prices m p) NaN = NaN -> (t <= u < List.length p)%nat ->
  nth u (reconstruct_prices m p) NaN = NaN.
Proof.
  intros m p t u Ht Hu. induction u as [|u IH].
  - replace t with 0%nat in Ht by lia. exact Ht.
  - destruct (Nat.eq_dec t (S u)) as [<-|Hne]; [exact Ht|].
    rewrite nth_reconstruct_succ by lia. rewrite IH by lia. apply fmul_nan_l.
Qed.

(** With no missing price, each rebuilt price is the original one or NaN. *)
Lemma reconstruct_exact_or_nan : forall m p,
  (forall t, (t < List.length p)%nat -> exists a, nth t p NaN = Fin a) ->
  forall t, (t < List.length p)%nat ->
  nth t (reconstruct_prices m p) NaN = nth t p NaN \/ nth t (reconstruct_prices m p) NaN = NaN.
Proof.
  intros m p Hpres t. induction t as [|t IH]; intros Ht.
  - left. destruct p; [simpl in Ht; lia | reflexivity].
  - rewrite nth_reconstruct_succ by lia.
    destruct (Hpres t) as [a Ha]; [lia|]. destruct (Hpres (S t)) as [b Hb]; [lia|].
    rewrite (pct_col_present_step m p t a b Ht Ha Hb).
    destruct (IH ltac:(lia)) as [E|E]; rewrite E; [|right; apply fmul_nan_l].
    rewrite Ha, Hb. simpl.
    destruct (Req_dec_T a 0) as [->|Ha0].
    + destruct (Req_dec_T b 0) as [->|Hb0].
      * simpl. left. f_equal. ring.
      * right. destruct (Rlt_dec 0 b); simpl; unfold inf_times;
          (destruct (Req_dec_T 0 0) as [_|]; [reflexivity | congruence]).
    + simpl. left. f_equal. field. exact Ha0.
Qed.

(** C9 (amended): for every price column with no missing value in which no
    zero price is followed by a nonzero price, rebuilding the prices from
    the first one with [price[t] = price[t-1] * (1 + return[t])] gives the
    column back (in exact arithmetic; rounding is not modelled).  Where a
    zero price is followed by a nonzero price [b], the return is [+inf]
    ([b > 0]) or [-inf] ([b < 0]), and the rebuilt price is NaN from that
    date on. *)
Theorem C9_roundtrip : forall m p,
  (forall t, (t < List.length p)%nat -> exists a, nth t p NaN = Fin a) ->
  ((forall t, (S t < List.length p)%nat -> nth t p NaN = Fin 0 -> nth (S t) p NaN = Fin 0) ->
   reconstruct_prices m p = p) /\
  (forall t b, (S t < List.length p)%nat ->
   nth t p NaN = Fin 0 -> nth (S t) p NaN = Fin b -> b <> 0 ->
   nth (S t) (pct_col m p) NaN = inf_sign (if Rlt_dec 0 b then true else false) /\
   (forall u, (S t <= u < List.length p)%nat -> nth u (reconstruct_prices m p) NaN = NaN)).
Proof.
  intros m p Hpres. split.
  2:{
  intros t b Ht Ha Hb Hb0.
  assert (Hr : nth (S t) (pct_col m p) NaN = inf_sign (if Rlt_dec 0 b then true else false)).
  { rewrite (pct_col_present_step m p t 0 b Ht Ha Hb). simpl.
    destruct (Req_dec_T 0 0) as [_|]; [|congruence].
    destruct (Req_dec_T b 0) as [|_]; [contradiction|].
    destruct (Rlt_dec 0 b); reflexivity. }
  split; [exact Hr|].
  intros u Hu. apply (reconstruct_nan_after m p (S t) u); [|exact Hu].
  rewrite nth_reconstruct_succ by exact Ht. rewrite Hr.
  destruct (reconstruct_exact_or_nan m p Hpres t ltac:(lia)) as [E|E]; rewrite E;
    [|apply fmul_nan_l].
  rewrite Ha. destruct (Rlt_dec 0 b); simpl; unfold inf_times;
    (destruct (Req_dec_T 0 0) as [_|]; [reflexivity | congruence]). }
  intros Hzero.
  destruct p as [|p0 ps] eqn:Ep; [reflexivity|]. rewrite <- Ep in *.
  unfold reconstruct_prices. rewrite Ep at 1.
  assert (Hlen : List.length (tl (pct_col m p)) = List.length ps).
  { rewrite Ep. destruct (pct_col m (p0 :: ps)) eqn:E; simpl;
    apply (f_equal (@List.length fnum)) in E; rewrite pct_col_length in E; simpl in E; lia. }
  apply nth_ext with (d := NaN) (d' := NaN).
  { simpl. rewrite rebuild_from_length, Hlen, Ep. reflexivity. }
  intros t Ht. simpl in Ht. rewrite rebuild_from_length, Hlen in Ht.
  induction t as [|t IH]; [rewrite Ep; reflexivity|].
  rewrite nth_rebuild_from by (rewrite Hlen; lia).
  rewrite IH by lia.
  assert (Htl : nth t (tl (pct_col m p)) NaN = nth (S t) (pct_col m p) NaN).
  { destruct (pct_col m p); destruct t; reflexivity. }
  assert (HlenS : (S t < List.length p)%nat) by (rewrite Ep; simpl; lia).
  rewrite Htl, nth_pct_col by lia.
  destruct (Hpres t) as [a Ha]; [lia|].
  destruct (Hpres (S t)) as [b Hb]; [lia|].
  replace (S t - 1)%nat with t by lia.
  rewrite (nth_pct_data_present m p t (Fin a)) by (auto; lia).
  rewrite (nth_pct_data_present m p (S t) (Fin b)) by (auto; lia).
  rewrite Ha, Hb. simpl.
  destruct (Req_dec_T a 0) as [->|Ha0].
  - assert (b = 0) as ->.
    { specialize (Hzero t HlenS Ha). congruence. }
    destruct (Req_dec_T 0 0) as [_|]; [|congruence].
    simpl. f_equal. ring.
  - simpl. f_equal. field. exact Ha0.
Qed.

Lemma C9_roundtrip_witness :
  reconstruct_prices Pad [Fin 100; Fin 110; Fin 99] = [Fin 100; Fin 110; Fin 99] /\
  nth 1 (pct_col NoFill [Fin 0; Fin 5; Fin 7]) NaN = PInf /\
  nth 2 (reconstruct_prices NoFill [Fin 0; Fin 5; Fin 7]) NaN = NaN.
Proof.
  assert (H1 : forall t, (t < List.length [Fin 100; Fin 110; Fin 99])%nat ->
                 exists a, nth t [Fin 100; Fin 110; Fin 99] NaN = Fin a).
  { intros t Ht. simpl in Ht.
    destruct t as [|[|[|t]]]; [eexists; reflexivity | eexists; reflexivity
                              | eexists; reflexivity | lia]. }
  assert (H2 : forall t, (t < List.length [Fin 0; Fin 5; Fin 7])%nat ->
                 exists a, nth t [Fin 0; Fin 5; Fin 7] NaN = Fin a).
  { intros t Ht. simpl in Ht.
    destruct t as [|[|[|t]]]; [eexists; reflexivity | eexists; reflexivity
                              | eexists; reflexivity | lia]. }
  split.
  - apply (proj1 (C9_roundtrip Pad _ H1)).
    intros t Ht H. simpl in Ht.
    destruct t as [|[|t]]; [injection H; lra | injection H; lra | lia].
  - destruct (proj2 (C9_roundtrip NoFill _ H2) 0%nat 5 ltac:(simpl; lia) eq_refl eq_refl
                ltac:(lra)) as [E1 E2].
    split.
    + rewrite E1. destruct (Rlt_dec 0 5); [reflexivity | lra].
    + apply E2. simpl. lia.
Defined.

(** * Column lookup, assignment and drop *)

Lemma find_set_same : forall (cs : list (string * list fnum)) name c,
  existsb (fun '(n, _) => String.eqb n name) cs = true ->
  find (fun '(n, _) => String.eqb n name)
    (map (fun '(n, c0) => if String.eqb n name then (n, c) else (n, c0)) cs) = Some (name, c).
Proof.
  induction cs as [|[n c0] cs IH]; intros name c H; simpl in H |- *; [discriminate|].
  destruct (String.eqb n name) eqn:E; simpl; rewrite ?E.
  - apply String.eqb_eq in E. subst. reflexivity.
  - apply IH. exact H.
Qed.

Lemma find_app_fresh : forall (cs : list (string * list fnum)) name c,
  existsb (fun '(n, _) => String.eqb n name) cs = false ->
  find (fun '(n, _) => String.eqb n name) (cs ++ [(name, c)]) = Some (name, c).
Proof.
  induction cs as [|[n c0] cs IH]; intros name c H; simpl in H |- *.
  - rewrite String.eqb_refl. reflexivity.
  - destruct (String.eqb n name); [discriminate | apply IH; exact H].
Qed.

Lemma lookup_set_col_same : forall name c df,
  lookup_col name (set_col name c df) = Some c.
Proof.
  intros name c [n cs]. unfold lookup_col, set_col. simpl.
  destruct (existsb _ cs) eqn:E; simpl.
  - rewrite find_set_same by exact E. reflexivity.
  - rewrite find_app_fresh by exact E. reflexivity.
Qed.

Lemma find_set_other : forall (cs : list (string * list fnum)) name n' c,
  n' <> name ->
  find (fun '(n, _) => String.eqb n n')
    (map (fun '(n, c0) => if String.eqb n name then (n, c) else (n, c0)) cs) =
  find (fun '(n, _) => String.eqb n n') cs.
Proof.
  induction cs as [|[n c0] cs IH]; intros name n' c Hne; simpl; [reflexivity|].
  destruct (String.eqb n name) eqn:E; simpl.
  - apply String.eqb_eq in E. subst n.
    destruct (String.eqb name n') eqn:E'.
    + apply String.eqb_eq in E'. congruence.
    + apply IH. exact Hne.
  - destruct (String.eqb n n'); [reflexivity | apply IH; exact Hne].
Qed.

Lemma find_app_other : forall (cs : list (string * list fnum)) name n' c,
  n' <> name ->
  find (fun '(n, _) => String.eqb n n') (cs ++ [(name, c)]) =
  find (fun '(n, _) => String.eqb n n') cs.
Proof.
  induction cs as [|[n c0] cs IH]; intros name n' c Hne; simpl.
  - destruct (String.eqb name n') eqn:E; [apply String.eqb_eq in E; congruence | reflexivity].
  - destruct (String.eqb n n'); [reflexivity | apply IH; exact Hne].
Qed.

Lemma lookup_set_col_other : forall name n' c df,
  n' <> name -> lookup_col n' (set_col name c df) = lookup_col n' df.
Proof.
  intros name n' c [n cs] Hne. unfold lookup_col, set_col. simpl.
  destruct (existsb _ cs); simpl.
  - rewrite find_set_other by exact Hne. reflexivity.
  - rewrite find_app_other by exact Hne. reflexivity.
Qed.

Lemma set_col_fresh : forall name c df,
  ~ In name (map fst (cols df)) ->
  set_col name c df = mkFrame (nrows df) (cols df ++ [(name, c)]).
Proof.
  intros name c df Hn. unfold set_col.
  replace (existsb _ (cols df)) with false; [reflexivity|].
  symmetry. apply Bool.not_true_iff_false. intros H.
  apply existsb_exists in H. destruct H as [[n c0] [Hin He]].
  apply String.eqb_eq in He. subst n.
  apply Hn. apply in_map_iff. exists (name, c0). auto.
Qed.

Lemma drop_app : forall names n cs extra,
  (forall x, In x (map fst cs) -> mem_name x names = false) ->
  (forall x, In x (map fst extra) -> mem_name x names = true) ->
  drop names (mkFrame n (cs ++ extra)) = mkFrame n cs.
Proof.
  intros names n cs extra Hcs Hex. unfold drop. simpl. f_equal.
  rewrite filter_app.
  assert (E1 : filter (fun '(x, _) => negb (mem_name x names)) cs = cs).
  { clear Hex. induction cs as [|[x c] cs IH]; [reflexivity|].
    simpl. rewrite (Hcs x) by (left; reflexivity). simpl. f_equal.
    apply IH. intros y Hy. apply Hcs. right. exact Hy. }
  assert (E2 : filter (fun '(x, _) => negb (mem_name x names)) extra = []).
  { clear Hcs E1. induction extra as [|[x c] extra IH]; [reflexivity|].
    simpl. rewrite (Hex x) by (left; reflexivity). simpl.
    apply IH. intros y Hy. apply Hex. right. exact Hy. }
  rewrite E1, E2. apply app_nil_r.
Qed.

Lemma mem_name_In : forall x l, mem_name x l = true <-> In x l.
Proof.
  intros x l. unfold mem_name. rewrite existsb_exists. split.
  - intros [y [Hy He]]. apply String.eqb_eq in He. subst. exact Hy.
  - intros H. exists x. split; [exact H | apply String.eqb_refl].
Qed.

Lemma lookup_app_fresh : forall name c n cs,
  ~ In name (map fst cs) ->
  lookup_col name (mkFrame n (cs ++ [(name, c)])) = Some c.
Proof.
  intros name c n cs Hn.
  pose proof (set_col_fresh name c (mkFrame n cs) Hn) as E. simpl in E.
  rewrite <- E. apply lookup_set_col_same.
Qed.

Lemma ticker_only_fresh : forall tp s,
  ticker_only tp -> In s stats_cols -> ~ In s (map fst (cols tp)).
Proof.
  intros tp s H Hs Hin. specialize (H s Hin).
  apply mem_name_In in Hs. congruence.
Qed.

Lemma in_names_app : forall (cs : list (string * list fnum)) nm c x,
  In x (map fst (cs ++ [(nm, c)])) <-> In x (map fst cs) \/ x = nm.
Proof.
  intros. rewrite map_app, in_app_iff. simpl. intuition.
Qed.

Lemma ticker_not_member : forall tp names,
  ticker_only tp -> (forall s, In s names -> In s stats_cols) ->
  forall x, In x (map fst (cols tp)) -> mem_name x names = false.
Proof.
  intros tp names H Hsub x Hx.
  destruct (mem_name x names) eqn:Hm; [|reflexivity]. exfalso.
  apply mem_name_In in Hm. exact (ticker_only_fresh tp x H (Hsub x Hm) Hx).
Qed.

(** The annotated matrix is the ticker columns followed by the four
    statistic columns. *)
Lemma annotate_shape : forall tp,
  ticker_only tp ->
  annotate tp =
  mkFrame (nrows tp)
    (cols tp ++
     [("mean_pct_chg", row_stat nanmean tp);
      ("median_pct_change", row_stat nanmedian tp);
      ("std", row_stat nanstd tp);
      ("2std", map (fmul (Fin 2)) (row_stat nanstd tp))]).
Proof.
  intros [n cs] H. unfold annotate. cbv zeta.
  assert (Hf : forall s, In s stats_cols -> ~ In s (map fst cs))
    by (intros s Hs; exact (ticker_only_fresh _ s H Hs)).
  assert (Hm : forall s, In s stats_cols -> mem_name s stats_cols = true)
    by (intros s Hs; apply mem_name_In; exact Hs).
  rewrite (set_col_fresh "mean_pct_chg") by (apply Hf; simpl; tauto).
  simpl nrows; simpl cols.
  rewrite (drop_app ["mean_pct_chg"] n cs).
  2:{ apply (ticker_not_member (mkFrame n cs)); [exact H | simpl; tauto]. }
  2:{ simpl. intros x [<-|[]]. reflexivity. }
  rewrite (set_col_fresh "median_pct_change").
  2:{ simpl. rewrite in_names_app. intros [Hin|Hin]; [|discriminate].
      eapply Hf; [|exact Hin]; simpl; tauto. }
  simpl nrows; simpl cols.
  rewrite <- app_assoc. simpl app.
  rewrite (drop_app ["mean_pct_chg"; "median_pct_change"] n cs).
  2:{ apply (ticker_not_member (mkFrame n cs)); [exact H | simpl; tauto]. }
  2:{ simpl. intros x [<-|[<-|[]]]; reflexivity. }
  rewrite (set_col_fresh "std").
  2:{ simpl. rewrite map_app, in_app_iff. simpl. intros [Hin|Hin].
      - eapply Hf; [|exact Hin]; simpl; tauto.
      - destruct Hin as [E|[E|[]]]; discriminate. }
  simpl nrows; simpl cols.
  rewrite lookup_app_fresh.
  2:{ rewrite map_app, in_app_iff. simpl. intros [Hin|Hin].
      - eapply Hf; [|exact Hin]; simpl; tauto.
      - destruct Hin as [E|[E|[]]]; discriminate. }
  rewrite (set_col_fresh "2std").
  2:{ simpl. rewrite !map_app, !in_app_iff. simpl. intros [[Hin|Hin]|Hin].
      - eapply Hf; [|exact Hin]; simpl; tauto.
      - destruct Hin as [E|[E|[]]]; discriminate.
      - destruct Hin as [E|[]]; discriminate. }
  simpl. rewrite <- !app_assoc. reflexivity.
Qed.

Lemma lookup_app_skip : forall name n cs rest,
  ~ In name (map fst cs) ->
  lookup_col name (mkFrame n (cs ++ rest)) = lookup_col name (mkFrame n rest).
Proof.
  intros name n cs rest Hn. unfold lookup_col. simpl. f_equal.
  induction cs as [|[x c] cs IH]; [reflexivity|].
  simpl in Hn |- *. destruct (String.eqb x name) eqn:E.
  - apply String.eqb_eq in E. tauto.
  - apply IH. tauto.
Qed.

Lemma filter_keep_tickers : forall xs,
  (forall x, In x xs -> mem_name x stats_cols = false) ->
  filter (fun c => negb (mem_name c stats_cols)) xs = xs.
Proof.
  induction xs as [|x xs IH]; intros H; [reflexivity|].
  cbn [filter]. rewrite (H x) by (left; reflexivity). cbn [negb]. f_equal.
  apply IH. intros y Hy. apply H. right. exact Hy.
Qed.

(** * C3: the statistic columns are computed over the ticker columns *)

(** C3: for every cumulative matrix whose columns are ticker columns, the
    annotated matrix's ticker columns are exactly those columns, and its
    mean, median and std columns are the row-wise mean, median and std of
    those ticker columns alone (the median does not see the mean column,
    the std sees neither the mean nor the median column). *)
Theorem C3_stats_over_tickers_only : forall tp,
  ticker_only tp ->
  stock_cols (annotate tp) = map fst (cols tp) /\
  lookup_col "mean_pct_chg" (annotate tp) = Some (row_stat nanmean tp) /\
  lookup_col "median_pct_change" (annotate tp) = Some (row_stat nanmedian tp) /\
  lookup_col "std" (annotate tp) = Some (row_stat nanstd tp).
Proof.
  intros tp H. rewrite (annotate_shape tp H).
  assert (Hf : forall s, In s stats_cols -> ~ In s (map fst (cols tp)))
    by (intros s Hs; exact (ticker_only_fresh _ s H Hs)).
  split; [|split; [|split]].
  - unfold stock_cols. cbn [cols]. rewrite map_app, filter_app.
    match goal with |- (?a ++ ?b = _)%list => replace b with (@nil string) by reflexivity end.
    rewrite app_nil_r. apply filter_keep_tickers. exact H.
  - rewrite lookup_app_skip by (apply Hf; simpl; tauto). reflexivity.
  - rewrite lookup_app_skip by (apply Hf; simpl; tauto). reflexivity.
  - rewrite lookup_app_skip by (apply Hf; simpl; tauto). reflexivity.
Qed.

Lemma C3_stats_over_tickers_only_witness :
  ticker_only (mkFrame 1 [("A.NS", [Fin 10]); ("B.NS", [Fin (-10)])]) /\
  lookup_col "std" (annotate (mkFrame 1 [("A.NS", [Fin 10]); ("B.NS", [Fin (-10)])]))
  = Some (row_stat nanstd (mkFrame 1 [("A.NS", [Fin 10]); ("B.NS", [Fin (-10)])])).
Proof.
  assert (H : ticker_only (mkFrame 1 [("A.NS", [Fin 10]); ("B.NS", [Fin (-10)])])).
  { intros x Hx. simpl in Hx. destruct Hx as [<-|[<-|[]]]; reflexivity. }
  split; [exact H|].
  apply (C3_stats_over_tickers_only _ H).
Defined.

(** * C8: the [2std] column *)

(** C8: for every cumulative matrix, the annotated matrix has a [std] column
    and its [2std] column is that column multiplied by 2, row by row. *)
Theorem C8_std2_is_twice_std : forall tp,
  exists s, lookup_col "std" (annotate tp) = Some s /\
            lookup_col "2std" (annotate tp) = Some (map (fmul (Fin 2)) s).
Proof.
  intros tp. unfold annotate. cbv zeta.
  rewrite lookup_set_col_same.
  eexists. split.
  - rewrite lookup_set_col_other by discriminate. apply lookup_set_col_same.
  - apply lookup_set_col_same.
Qed.

(** * C2: the [std] column *)

Lemma nth_row_stat : forall f tp i,
  (i < nrows tp)%nat -> nth i (row_stat f tp) NaN = f (row i tp).
Proof.
  intros f tp i Hi. unfold row_stat.
  rewrite nth_indep with (d' := (fun i => f (row i tp)) 0%nat)
    by (rewrite length_map, length_seq; exact Hi).
  rewrite (map_nth (fun i => f (row i tp))), seq_nth by exact Hi. reflexivity.
Qed.

Lemma nanstd_single : forall x, nanstd [x] = NaN.
Proof. destruct x; reflexivity. Qed.

Lemma fsqrt_fin_nonneg : forall y r, fsqrt y = Fin r -> 0 <= r.
Proof.
  intros [a| | |] r H; simpl in H; try discriminate.
  destruct (Rlt_dec a 0); [discriminate|]. injection H as <-. apply sqrt_pos.
Qed.

Lemma nanstd_fin_nonneg : forall l r, nanstd l = Fin r -> 0 <= r.
Proof.
  intros l r. unfold nanstd. destruct (_ <=? _)%nat; [discriminate|].
  apply fsqrt_fin_nonneg.
Qed.

Lemma dropna_fin : forall xs, dropna (map Fin xs) = map Fin xs.
Proof. induction xs as [|x xs IH]; simpl; [reflexivity | f_equal; exact IH]. Qed.

Lemma fold_fadd_fin : forall xs a,
  fold_left fadd (map Fin xs) (Fin a) = Fin (fold_left Rplus xs a).
Proof. induction xs as [|x xs IH]; intros a; simpl; [reflexivity | apply IH]. Qed.

Lemma fold_Rplus_nonneg : forall ys a,
  0 <= a -> (forall y, In y ys -> 0 <= y) -> 0 <= fold_left Rplus ys a.
Proof.
  induction ys as [|y ys IH]; intros a Ha Hy; simpl; [exact Ha|].
  apply IH; [|intros z Hz; apply Hy; right; exact Hz].
  pose proof (Hy y (or_introl eq_refl)). lra.
Qed.

Lemma nanstd_finite : forall xs,
  (2 <= List.length xs)%nat -> nanstd (map Fin xs) = Fin (sample_std_R xs).
Proof.
  intros xs Hn. unfold nanstd. rewrite dropna_fin, length_map.
  replace (List.length xs <=? ddof)%nat with false
    by (symmetry; apply Nat.leb_gt; unfold ddof; lia).
  cbv zeta. unfold fsum. rewrite fold_fadd_fin.
  assert (Hn0 : INR (List.length xs) <> 0) by (apply not_0_INR; lia).
  assert (Hn1 : INR (List.length xs - ddof) <> 0) by (apply not_0_INR; unfold ddof; lia).
  assert (Hpos : 0 < INR (List.length xs - ddof)) by (apply lt_0_INR; unfold ddof; lia).
  simpl fdiv at 1. destruct (Req_dec_T (INR (List.length xs)) 0) as [E|_]; [contradiction|].
  rewrite map_map.
  set (avg := fold_left Rplus xs 0 / INR (List.length xs)).
  rewrite (map_ext (fun x => let d := fsub (Fin x) (Fin avg) in fmul d d)
                   (fun x => Fin ((x - avg) * (x - avg)))) by reflexivity.
  rewrite <- (map_map (fun x => (x - avg) * (x - avg)) Fin), fold_fadd_fin.
  set (q := fold_left Rplus (map (fun x => (x - avg) * (x - avg)) xs) 0).
  assert (Hq : 0 <= q).
  { apply fold_Rplus_nonneg; [lra|]. intros y Hy. apply in_map_iff in Hy.
    destruct Hy as [x [<- _]]. apply Rle_0_sqr. }
  simpl fdiv. destruct (Req_dec_T (INR (List.length xs - ddof)) 0) as [E|_]; [contradiction|].
  simpl fsqrt. destruct (Rlt_dec (q / INR (List.length xs - ddof)) 0) as [Hlt|_].
  - exfalso. assert (0 <= q / INR (List.length xs - ddof)); [|lra].
    unfold Rdiv. apply Rmult_le_pos; [exact Hq|].
    left. apply Rinv_0_lt_compat. exact Hpos.
  - reflexivity.
Qed.

(** C2 (counterexample): [DataFrame.std] uses [ddof=1], so over a single
    ticker column the [std] column is NaN at every row, not 0. *)
Lemma C2_single_ticker_std_is_nan :
  lookup_col "std" (annotate (mkFrame 2 [("A.NS", [Fin 0; Fin 10])])) = Some [NaN; NaN].
Proof. reflexivity. Qed.

(** C2 (amended): the [std] column is the sample standard deviation
    ([ddof=1], Bessel-corrected).  With exactly one ticker column it is NaN
    at every row.  At a row with at least two ticker values, all present
    and finite, it is [sqrt (sum (x - mean)^2 / (n - 1))], which is >= 0.
    At every row a numeric (finite) value of [std] is >= 0. *)
Theorem C2_sample_std : forall tp,
  ticker_only tp ->
  exists s, lookup_col "std" (annotate tp) = Some s /\
  (forall nm c, cols tp = [(nm, c)] ->
     forall i, (i < nrows tp)%nat -> nth i s NaN = NaN) /\
  (forall i xs, (i < nrows tp)%nat -> row i tp = map Fin xs ->
     (2 <= List.length xs)%nat ->
     nth i s NaN = Fin (sample_std_R xs) /\ 0 <= sample_std_R xs) /\
  (forall i r, nth i s NaN = Fin r -> 0 <= r).
Proof.
  intros tp H. exists (row_stat nanstd tp).
  split; [|split; [|split]].
  - rewrite (annotate_shape tp H), lookup_app_skip
      by (apply (ticker_only_fresh tp "std" H); simpl; tauto).
    reflexivity.
  - intros nm c Hc i Hi. rewrite nth_row_stat by exact Hi.
    unfold row. rewrite Hc. apply nanstd_single.
  - intros i xs Hi Hrow Hn. rewrite nth_row_stat, Hrow by exact Hi.
    rewrite nanstd_finite by exact Hn. split; [reflexivity|].
    apply (nanstd_fin_nonneg (map Fin xs)). apply nanstd_finite. exact Hn.
  - intros i r Hr. destruct (Nat.lt_ge_cases i (nrows tp)) as [Hi|Hi].
    + rewrite nth_row_stat in Hr by exact Hi. exact (nanstd_fin_nonneg _ _ Hr).
    + rewrite nth_overflow in Hr by (unfold row_stat; rewrite length_map, length_seq; exact Hi).
      discriminate.
Qed.

Lemma C2_sample_std_witness :
  ticker_only (mkFrame 1 [("A.NS", [Fin 10]); ("B.NS", [Fin (-10)])]) /\
  exists s, lookup_col "std" (annotate (mkFrame 1 [("A.NS", [Fin 10]); ("B.NS", [Fin (-10)])])) = Some s /\
            nth 0 s NaN = Fin (sample_std_R [10; -10]).
Proof.
  assert (H : ticker_only (mkFrame 1 [("A.NS", [Fin 10]); ("B.NS", [Fin (-10)])])).
  { intros x Hx. simpl in Hx. destruct Hx as [<-|[<-|[]]]; reflexivity. }
  split; [exact H|].
  destruct (C2_sample_std _ H) as [s [Hs [_ [Hfin _]]]].
  exists s. split; [exact Hs|].
  apply (Hfin 0%nat [10; -10]); [simpl; lia | reflexivity | simpl; lia].
Defined.

(** * C5: classification on the last row *)

Lemma stock_cols_annotate : forall tp,
  ticker_only tp -> stock_cols (annotate tp) = map fst (cols tp).
Proof.
  intros tp H. rewrite (annotate_shape tp H).
  unfold stock_cols. cbn [cols]. rewrite map_app, filter_app.
  match goal with |- (?a ++ ?b = _)%list => replace b with (@nil string) by reflexivity end.
  rewrite app_nil_r. apply filter_keep_tickers. exact H.
Qed.

Lemma fgt_irrefl : forall x, fgt x x = false.
Proof.
  intros [a| | |]; simpl; try reflexivity.
  destruct (Rlt_dec a a); [lra | reflexivity].
Qed.

(** C5: on an annotated matrix, each filter mode keeps, among the ticker
    columns and in their order, those whose last value is strictly greater
    (Python's float [>], false on NaN) than the last value of the mode's
    statistic column; [All stocks] keeps every ticker; a tie is never kept;
    and the selection depends only on the last row. *)
Theorem C5_classify_last_row : forall tp filter_opt,
  ticker_only tp ->
  let A := annotate tp in
  shown_cols filter_opt A =
    filter (fun c => match filter_opt with
                     | AllStocks => true
                     | AboveMean => fgt (last_val A c) (last_val A "mean_pct_chg")
                     | AboveMedian => fgt (last_val A c) (last_val A "median_pct_change")
                     | AboveStd => fgt (last_val A c) (last_val A "std")
                     | Above2Std => fgt (last_val A c) (last_val A "2std")
                     end) (map fst (cols tp)) /\
  shown_cols AllStocks A = map fst (cols tp) /\
  (forall x, fgt x x = false) /\
  (forall B, stock_cols B = stock_cols A -> (forall c, last_val B c = last_val A c) ->
     shown_cols filter_opt B = shown_cols filter_opt A).
Proof.
  intros tp filter_opt H A. subst A.
  split; [|split; [|split]].
  - unfold shown_cols. rewrite (stock_cols_annotate tp H).
    apply filter_ext. intros c. destruct filter_opt; reflexivity.
  - unfold shown_cols. rewrite (stock_cols_annotate tp H).
    induction (map fst (cols tp)) as [|x xs IH]; simpl; [reflexivity | f_equal; exact IH].
  - exact fgt_irrefl.
  - intros B Hs Hl. unfold shown_cols. rewrite Hs.
    apply filter_ext. intros c. unfold show. rewrite !Hl. reflexivity.
Qed.

Lemma C5_classify_last_row_witness :
  ticker_only (mkFrame 1 [("A.NS", [Fin 10]); ("B.NS", [Fin (-10)])]) /\
  shown_cols AllStocks (annotate (mkFrame 1 [("A.NS", [Fin 10]); ("B.NS", [Fin (-10)])]))
  = ["A.NS"; "B.NS"].
Proof.
  assert (H : ticker_only (mkFrame 1 [("A.NS", [Fin 10]); ("B.NS", [Fin (-10)])])).
  { intros x Hx. simpl in Hx. destruct Hx as [<-|[<-|[]]]; reflexivity. }
  split; [exact H|].
  destruct (C5_classify_last_row _ AllStocks H) as [_ [HA _]]. exact HA.
Defined.

(** * C6: the chart's traces *)

(** C6: for every filter mode and matrix, the chart's traces are the
    traces of the selected tickers, in order, followed by the four
    reference traces Mean, Median, Std Dev and 2 Std Dev, drawn from the
    [mean_pct_chg], [median_pct_change], [std] and [2std] columns; no
    filter removes them. *)
Theorem C6_reference_traces_last : forall filter_opt df,
  exists ts,
    figure filter_opt df =
      (ts ++ [mkTrace "Mean" (col_or_nil "mean_pct_chg" df) (Dotted 3 "black");
              mkTrace "Median" (col_or_nil "median_pct_change" df) (Dotted 3 "blue");
              mkTrace "Std Dev" (col_or_nil "std" df) (Dotted 3 "red");
              mkTrace "2 Std Dev" (col_or_nil "2std" df) (Dotted 3 "purple")])%list /\
    map tr_name ts = shown_cols filter_opt df /\
    (forall t, In t ts -> tr_style t = Translucent (6 / 10)).
Proof.
  intros filter_opt df. exists (map (stock_trace df) (shown_cols filter_opt df)).
  split; [reflexivity|split].
  - rewrite map_map. apply map_id.
  - intros t Ht. apply in_map_iff in Ht. destruct Ht as [c [<- _]]. reflexivity.
Qed.

(** * C7: the empty-data guard *)

(** C7: when the downloaded price frame is empty, the run shows the group
    table (before the download), then the warning, and stops: no chart and
    no performance table are produced. *)
Theorem C7_empty_prices_stop : forall m price_df show_table filter_opt,
  frame_empty price_df = true ->
  run m price_df show_table filter_opt =
    [GroupTable; Warning "No price data available for selected date range."] /\
  (forall e, In e (run m price_df show_table filter_opt) ->
     (forall ts, e <> Chart ts) /\ (forall t, e <> PerfTable t)).
Proof.
  intros m price_df show_table filter_opt He.
  assert (E : run m price_df show_table filter_opt =
              [GroupTable; Warning "No price data available for selected date range."])
    by (unfold run; rewrite He; reflexivity).
  split; [exact E|].
  rewrite E. intros e [<-|[<-|[]]]; split; intros; discriminate.
Qed.

Lemma C7_empty_prices_stop_witness :
  frame_empty (mkFrame 0 [("A.NS", [])]) = true /\
  run Pad (mkFrame 0 [("A.NS", [])]) true AllStocks =
    [GroupTable; Warning "No price data available for selected date range."].
Proof.
  split; [reflexivity|].
  apply (C7_empty_prices_stop Pad (mkFrame 0 [("A.NS", [])]) true AllStocks).
  reflexivity.
Defined.

(** * C10: missing market caps in the stock list *)

Lemma insert_desc_perm : forall x l, Permutation (insert_desc x l) (x :: l).
Proof.
  intros x l. induction l as [|y l IH]; simpl; [reflexivity|].
  destruct (Rle_dec (snd y) (snd x)); [reflexivity|].
  rewrite IH. apply perm_swap.
Qed.

Lemma sort_desc_perm : forall l, Permutation (sort_desc l) l.
Proof.
  induction l as [|x l IH]; simpl; [reflexivity|].
  rewrite insert_desc_perm, IH. reflexivity.
Qed.

Lemma insert_desc_hd : forall y x l,
  cap_ge y x -> HdRel cap_ge y l -> HdRel cap_ge y (insert_desc x l).
Proof.
  intros y x [|z l] Hyx Hl; simpl.
  - constructor. exact Hyx.
  - destruct (Rle_dec (snd z) (snd x)); constructor; [exact Hyx|].
    inversion Hl; assumption.
Qed.

Lemma insert_desc_sorted : forall x l,
  Sorted cap_ge l -> Sorted cap_ge (insert_desc x l).
Proof.
  intros x l. induction l as [|y l IH]; intros Hs; simpl.
  - repeat constructor.
  - destruct (Rle_dec (snd y) (snd x)) as [Hle|Hnle].
    + constructor; [exact Hs | constructor; exact Hle].
    + inversion Hs as [|? ? Hs' Hhd]; subst.
      constructor; [apply IH; exact Hs'|].
      apply insert_desc_hd; [unfold cap_ge; lra | exact Hhd].
Qed.

Lemma sort_desc_sorted : forall l, StronglySorted cap_ge (sort_desc l).
Proof.
  intros l. apply Sorted_StronglySorted.
  - intros a b c Hab Hbc. unfold cap_ge in *. lra.
  - induction l as [|x l IH]; simpl; [constructor | apply insert_desc_sorted; exact IH].
Qed.

Lemma strongly_sorted_nth_error : forall (A : Type) (Rel : A -> A -> Prop) l i j a b,
  StronglySorted Rel l -> (j < i)%nat ->
  nth_error l j = Some a -> nth_error l i = Some b -> Rel a b.
Proof.
  intros A Rel l. induction l as [|x l IH]; intros i j a b Hs Hji Ha Hb.
  - destruct j; discriminate.
  - inversion Hs as [|? ? Hs' Hall]; subst.
    destruct i as [|i]; [lia|].
    destruct j as [|j].
    + simpl in Ha, Hb. injection Ha as <-.
      rewrite Forall_forall in Hall. apply Hall. apply nth_error_In with i. exact Hb.
    + simpl in Ha, Hb. apply (IH i j); auto; lia.
Qed.

(** C10: [fillna(0)] turns every missing market cap into 0 before the
    descending sort, so the sorted list is a reordering of the filled rows,
    every row with a missing cap is in it with cap 0, and every row with a
    positive cap comes before every row with cap 0. *)
Theorem C10_missing_caps_last : forall rows,
  let out := prepare_stock_list rows in
  Permutation out (fill_mcap rows) /\
  (forall s, In (s, None) rows -> In (s, 0) out) /\
  (forall i j s1 c1 s2, nth_error out i = Some (s1, c1) -> 0 < c1 ->
     nth_error out j = Some (s2, 0) -> (i < j)%nat).
Proof.
  intros rows out. subst out. unfold prepare_stock_list.
  split; [|split].
  - apply sort_desc_perm.
  - intros s Hin. apply (Permutation_in _ (Permutation_sym (sort_desc_perm _))).
    unfold fill_mcap. apply in_map_iff. exists (s, None). split; [reflexivity | exact Hin].
  - intros i j s1 c1 s2 Hi Hc Hj.
    destruct (Nat.lt_trichotomy i j) as [Hlt|[Heq|Hgt]]; [exact Hlt| |].
    + subst j. rewrite Hi in Hj. injection Hj as _ E. lra.
    + pose proof (strongly_sorted_nth_error _ _ _ i j _ _ (sort_desc_sorted _) Hgt Hj Hi) as Hr.
      unfold cap_ge in Hr. simpl in Hr. lra.
Qed.

(** * Further properties of the script *)

(** ** Downloaded columns are ticker columns *)

Lemma ends_NS_append : forall s, ends_NS (String.append s ".NS") = true.
Proof.
  induction s as [|a s IH]; [reflexivity|].
  simpl. rewrite IH. apply orb_true_r.
Qed.

Lemma symbol_names_ticker_only : forall df,
  (forall x, In x (map fst (cols df)) -> exists s, x = String.append s ".NS") ->
  ticker_only df.
Proof.
  intros df H x Hx. destruct (H x Hx) as [s ->].
  destruct (mem_name (String.append s ".NS") stats_cols) eqn:E; [|reflexivity].
  apply mem_name_In in E. pose proof (ends_NS_append s) as Hs.
  simpl in E. destruct E as [E|[E|[E|[E|[]]]]]; rewrite <- E in Hs; discriminate.
Qed.

(** Columns named [SYMBOL + ".NS"] (line 60) never carry the name of a
    statistic column, so the column assignments of lines 79-88 append the
    four statistic columns after the tickers and overwrite none of them. *)
Theorem symbol_columns_ticker_only : forall df,
  (forall x, In x (map fst (cols df)) -> exists s, x = String.append s ".NS") ->
  ticker_only df /\
  annotate df =
  mkFrame (nrows df)
    (cols df ++
     [("mean_pct_chg", row_stat nanmean df);
      ("median_pct_change", row_stat nanmedian df);
      ("std", row_stat nanstd df);
      ("2std", map (fmul (Fin 2)) (row_stat nanstd df))]).
Proof.
  intros df H. assert (Ht : ticker_only df) by (apply symbol_names_ticker_only; exact H).
  split; [exact Ht | apply annotate_shape; exact Ht].
Qed.

Lemma symbol_columns_ticker_only_witness :
  (forall x, In x (map fst (cols (mkFrame 1 [("RELIANCE.NS", [Fin 1])]))) ->
     exists s, x = String.append s ".NS") /\
  map fst (cols (annotate (mkFrame 1 [("RELIANCE.NS", [Fin 1])]))) =
  ["RELIANCE.NS"; "mean_pct_chg"; "median_pct_change"; "std"; "2std"].
Proof.
  assert (H : forall x, In x (map fst (cols (mkFrame 1 [("RELIANCE.NS", [Fin 1])]))) ->
                exists s, x = String.append s ".NS").
  { intros x Hx. simpl in Hx. destruct Hx as [<-|[]]. exists "RELIANCE". reflexivity. }
  split; [exact H|].
  rewrite (proj2 (symbol_columns_ticker_only _ H)). reflexivity.
Defined.

(** ** Market-cap groups *)

Lemma py_index_nat : forall k n, py_index (Z.of_nat k) n = Nat.min k n.
Proof.
  intros k n. unfold py_index.
  replace (Z.of_nat k <? 0)%Z with false by (symmetry; apply Z.ltb_ge; lia).
  rewrite Nat2Z.id. reflexivity.
Qed.

Lemma df_group_succ : forall i l,
  df_group (Z.of_nat (S i)) l = firstn group_size (skipn (i * group_size) l).
Proof.
  intros i l. unfold df_group, iloc_slice.
  replace ((Z.of_nat (S i) - 1) * Z.of_nat group_size)%Z
    with (Z.of_nat (i * group_size)) by lia.
  replace (Z.of_nat (i * group_size) + Z.of_nat group_size)%Z
    with (Z.of_nat (i * group_size + group_size)) by lia.
  rewrite !py_index_nat.
  set (k := (i * group_size)%nat). set (N := List.length l).
  destruct (Nat.le_gt_cases N k) as [Hk|Hk].
  - replace (Nat.min k N) with N by lia.
    rewrite (skipn_all2 (n:=N)) by lia. rewrite (skipn_all2 (n:=k)) by lia.
    rewrite !firstn_nil. reflexivity.
  - replace (Nat.min k N) with k by lia.
    destruct (Nat.le_gt_cases (k + group_size) N) as [Hb|Hb].
    + replace (Nat.min (k + group_size) N - k)%nat with group_size by lia. reflexivity.
    + replace (Nat.min (k + group_size) N - k)%nat with (List.length (skipn k l))
        by (rewrite length_skipn; fold N; lia).
      rewrite firstn_all. symmetry. apply firstn_all2.
      rewrite length_skipn. fold N. unfold group_size in *. lia.
Qed.

Lemma concat_chunks : forall n (l : list (string * R)),
  (List.length l <= n * group_size)%nat ->
  List.concat (map (fun i => firstn group_size (skipn (i * group_size) l)) (seq 0 n)) = l.
Proof.
  induction n as [|n IH]; intros l Hl.
  - destruct l; [reflexivity | simpl in Hl; lia].
  - rewrite <- cons_seq, <- seq_shift, map_cons, map_map. cbn [List.concat]. rewrite Nat.mul_0_l. cbn [skipn].
    rewrite (map_ext (fun x => firstn group_size (skipn (S x * group_size) l))
                     (fun x => firstn group_size (skipn (x * group_size) (skipn group_size l)))).
    2:{ intros x. rewrite skipn_skipn. f_equal. f_equal. lia. }
    rewrite IH by (rewrite length_skipn; lia).
    apply firstn_skipn.
Qed.

(** The groups 1 .. [total_groups] offered by the selectbox cover the sorted
    stock list: concatenated in order they give it back, and each of them
    is non-empty.  Every group number [>= 1] selects at most 200 rows. *)
Theorem groups_partition : forall l,
  List.concat (map (fun g => df_group (Z.of_nat g) l) (seq 1 (total_groups l))) = l /\
  (forall g, (1 <= g)%Z -> (List.length (df_group g l) <= group_size)%nat) /\
  (forall g, (1 <= g <= Z.of_nat (total_groups l))%Z -> df_group g l <> []).
Proof.
  intros l.
  assert (Hdm := Nat.div_mod (List.length l + (group_size - 1)) group_size ltac:(discriminate)).
  assert (Hmb := Nat.mod_upper_bound (List.length l + (group_size - 1)) group_size ltac:(discriminate)).
  fold (total_groups l) in Hdm, Hmb. unfold group_size in Hdm, Hmb.
  split; [|split].
  - rewrite <- seq_shift, map_map.
    rewrite (map_ext _ _ (fun i => df_group_succ i l)).
    apply concat_chunks. unfold group_size. lia.
  - intros g Hg.
    assert (Hi : exists i, g = Z.of_nat (S i)) by (exists (Z.to_nat (g - 1)); lia).
    destruct Hi as [i ->].
    rewrite df_group_succ, length_firstn. lia.
  - intros g Hg.
    assert (Hi : exists i, g = Z.of_nat (S i)) by (exists (Z.to_nat (g - 1)); lia).
    destruct Hi as [i ->].
    rewrite df_group_succ. intros E.
    apply (f_equal (@List.length (string * R))) in E.
    rewrite length_firstn, length_skipn in E. cbn [List.length] in E.
    unfold group_size in E. lia.
Qed.

(** ** Degenerate and flat columns *)

Lemma ffill_from_all_nan : forall n, ffill_from NaN (repeat NaN n) = repeat NaN n.
Proof. induction n; simpl; [reflexivity | f_equal; exact IHn]. Qed.

Lemma pct_change_all_nan : forall m n,
  pct_change m (repeat NaN n) = repeat NaN n.
Proof.
  intros m n. apply nth_ext with (d := NaN) (d' := NaN).
  - rewrite pct_change_length. reflexivity.
  - intros t Ht. rewrite pct_change_length, repeat_length in Ht.
    assert (Hd : pct_data m (repeat NaN n) = repeat NaN n)
      by (destruct m; [apply ffill_from_all_nan | reflexivity]).
    destruct t as [|t].
    + rewrite nth_pct_change_0 by (destruct n; [lia | discriminate]).
      rewrite nth_repeat. reflexivity.
    + rewrite nth_pct_change by (rewrite repeat_length; lia).
      rewrite Hd, !nth_repeat. reflexivity.
Qed.

Lemma cumprod_ones : forall n,
  cumprod_from (Fin 1) (repeat (Fin (1 + 0)) n) = repeat (Fin 1) n.
Proof.
  induction n as [|n IH]; [reflexivity|].
  simpl. replace (1 * (1 + 0)) with 1 by ring. rewrite IH. reflexivity.
Qed.

(** A ticker whose prices are all missing gets a cumulative return of 0.0
    at every date, in both [pct_change] modes (NaN returns become 0). *)
Theorem all_missing_column_flat : forall m n,
  total_pct_col m (repeat NaN n) = repeat (Fin 0) n.
Proof.
  intros m n. unfold total_pct_col, pct_col. rewrite pct_change_all_nan.
  unfold fillna0, cum_pct, cumprod. rewrite map_repeat. simpl.
  rewrite map_repeat, cumprod_ones, map_repeat. simpl.
  replace ((1 + - (1)) * 100) with 0 by ring. reflexivity.
Qed.

(** ** Compounding *)

Lemma cumprod_from_length : forall l acc, List.length (cumprod_from acc l) = List.length l.
Proof.
  induction l as [|y l IH]; intros acc; [reflexivity|].
  destruct y; simpl; f_equal; apply IH.
Qed.

Lemma nth_map_Fin : forall xs t,
  (t < List.length xs)%nat -> nth t (map Fin xs) NaN = Fin (nth t xs 0).
Proof.
  intros xs t Ht. rewrite nth_indep with (d' := Fin 0) by (rewrite length_map; exact Ht).
  apply map_nth.
Qed.

Lemma nth_cumprod_from : forall l acc t,
  (forall y, In y l -> is_nan y = false) -> (t < List.length l)%nat ->
  nth t (cumprod_from acc l) NaN =
  match t with
  | O => fmul acc (nth 0 l NaN)
  | S t' => fmul (nth t' (cumprod_from acc l) NaN) (nth t l NaN)
  end.
Proof.
  induction l as [|y l IH]; intros acc t Hl Ht; simpl in Ht; [lia|].
  assert (Hy : is_nan y = false) by (apply Hl; left; reflexivity).
  assert (Hc : cumprod_from acc (y :: l) = fmul acc y :: cumprod_from (fmul acc y) l)
    by (destruct y; [reflexivity | reflexivity | reflexivity | discriminate]).
  rewrite Hc. destruct t as [|t]; [reflexivity|].
  simpl nth at 1. rewrite IH by (auto with datatypes; lia).
  destruct t as [|t]; reflexivity.
Qed.

Lemma fadd_one_not_nan : forall y, is_nan y = false -> is_nan (fadd (Fin 1) y) = false.
Proof. intros [a| | |] H; try reflexivity; discriminate. Qed.

Lemma fillna0_not_nan : forall l y, In y (fillna0 l) -> is_nan y = false.
Proof.
  intros l y Hy. unfold fillna0 in Hy. apply in_map_iff in Hy.
  destruct Hy as [x [<- _]]. destruct x; reflexivity.
Qed.

(** For a column of present, nonzero prices, the cumulative percentage
    return at date [t] is [(price[t] / price[0] - 1) * 100]: the compounded
    daily returns telescope, in both [pct_change] modes. *)
Theorem cumulative_return_telescopes : forall m xs,
  xs <> [] -> (forall x, In x xs -> x <> 0) ->
  forall t, (t < List.length xs)%nat ->
  nth t (total_pct_col m (map Fin xs)) NaN = Fin ((nth t xs 0 / nth 0 xs 0 - 1) * 100).
Proof.
  intros m xs Hne Hnz.
  set (p := map Fin xs).
  assert (Hlp : List.length p = List.length xs) by apply length_map.
  assert (Hx : forall t, (t < List.length xs)%nat -> nth t xs 0 <> 0)
    by (intros t Ht; apply Hnz; apply nth_In; exact Ht).
  set (v := map (fadd (Fin 1)) (pct_col m p)).
  assert (Hlv : List.length v = List.length xs)
    by (unfold v; rewrite length_map, pct_col_length; exact Hlp).
  assert (Hv : forall y, In y v -> is_nan y = false).
  { intros y Hy. unfold v in Hy. apply in_map_iff in Hy. destruct Hy as [z [<- Hz]].
    apply fadd_one_not_nan. exact (fillna0_not_nan _ _ Hz). }
  assert (Hdata : forall t, (t < List.length xs)%nat -> nth t (pct_data m p) NaN = Fin (nth t xs 0)).
  { intros t Ht. apply nth_pct_data_present; [lia | apply nth_map_Fin; exact Ht | reflexivity]. }
  assert (Hpos : (0 < List.length xs)%nat) by (destruct xs; [congruence | simpl; lia]).
  assert (Hv0 : nth 0 v NaN = Fin (1 + 0)).
  { unfold v. rewrite nth_indep with (d' := fadd (Fin 1) NaN)
      by (rewrite length_map, pct_col_length; lia).
    rewrite map_nth. unfold pct_col.
    rewrite nth_indep with (d' := Fin 0) by (rewrite fillna0_length, pct_change_length; lia).
    rewrite nth_fillna0, nth_pct_change_0 by (destruct xs; [congruence | discriminate]).
    reflexivity. }
  assert (HvS : forall t, (S t < List.length xs)%nat ->
            nth (S t) v NaN = Fin (1 + (nth (S t) xs 0 / nth t xs 0 + - 1))).
  { intros t Ht. unfold v. rewrite nth_indep with (d' := fadd (Fin 1) NaN)
      by (rewrite length_map, pct_col_length; lia).
    rewrite map_nth, nth_pct_col by lia.
    replace (S t - 1)%nat with t by lia.
    rewrite !Hdata by lia. simpl.
    destruct (Req_dec_T (nth t xs 0) 0) as [E|_]; [exfalso; apply (Hx t); [lia | exact E]|].
    reflexivity. }
  assert (Hc : forall t, (t < List.length xs)%nat ->
            nth t (cumprod v) NaN = Fin (nth t xs 0 / nth 0 xs 0)).
  { induction t as [|t IH]; intros Ht; unfold cumprod;
      rewrite nth_cumprod_from by (auto; lia).
    - rewrite Hv0. simpl. f_equal. field. apply Hx. lia.
    - fold (cumprod v). rewrite IH by lia. rewrite HvS by lia. simpl. f_equal.
      field. split; apply Hx; lia. }
  intros t Ht. unfold total_pct_col, cum_pct. fold p. fold v.
  rewrite nth_indep with (d' := fmul (fsub NaN (Fin 1)) (Fin 100))
    by (rewrite length_map; unfold cumprod; rewrite cumprod_from_length; lia).
  rewrite (map_nth (fun x => fmul (fsub x (Fin 1)) (Fin 100))), Hc by exact Ht.
  reflexivity.
Qed.

Lemma cumulative_return_telescopes_witness :
  [Fin 100; Fin 110] <> [] /\
  nth 1 (total_pct_col Pad (map Fin [100; 110])) NaN = Fin ((110 / 100 - 1) * 100).
Proof.
  split; [discriminate|].
  apply (cumulative_return_telescopes Pad [100; 110]); [discriminate | | simpl; lia].
  intros x [<-|[<-|[]]]; lra.
Defined.

(** ** The std filters *)

Lemma fsqrt_not_ninf : forall y, fsqrt y <> NInf.
Proof. intros [a| | |]; simpl; try discriminate. destruct (Rlt_dec a 0); discriminate. Qed.

Lemma nanstd_not_ninf : forall l, nanstd l <> NInf.
Proof.
  intros l. unfold nanstd. destruct (_ <=? _)%nat; [discriminate|]. apply fsqrt_not_ninf.
Qed.

Lemma last_map_nan : forall f l, f NaN = NaN -> last (map f l) NaN = f (last l NaN).
Proof.
  intros f l Hf. induction l as [|x l IH]; [simpl; congruence|].
  destruct l as [|y l]; [reflexivity|]. exact IH.
Qed.

Lemma last_in_or_default : forall (l : list fnum) d, last l d = d \/ In (last l d) l.
Proof.
  induction l as [|x l IH]; intros d; [left; reflexivity|].
  destruct l as [|y l]; [right; left; reflexivity|].
  destruct (IH d) as [H|H]; [left; exact H | right; right; exact H].
Qed.

Lemma fgt_twice : forall x s0,
  s0 <> NInf -> (forall r, s0 = Fin r -> 0 <= r) ->
  fgt x (fmul (Fin 2) s0) = true -> fgt x s0 = true.
Proof.
  intros x [r| | |] Hn Hr H.
  - specialize (Hr r eq_refl). destruct x as [a| | |]; simpl in H |- *; try reflexivity;
      try discriminate.
    destruct (Rlt_dec (2 * r) a); [|discriminate].
    destruct (Rlt_dec r a); [reflexivity | lra].
  - simpl in H. unfold inf_times in H.
    destruct (Req_dec_T 2 0); [lra|]. destruct (Rlt_dec 0 2); [|lra].
    destruct x; discriminate.
  - congruence.
  - destruct x; discriminate.
Qed.

Lemma last_val_std_annotate : forall tp,
  ticker_only tp ->
  last_val (annotate tp) "std" = last (row_stat nanstd tp) NaN /\
  last_val (annotate tp) "2std" = last (map (fmul (Fin 2)) (row_stat nanstd tp)) NaN.
Proof.
  intros tp H.
  assert (Hf : forall s, In s stats_cols -> ~ In s (map fst (cols tp)))
    by (intros s Hs'; exact (ticker_only_fresh _ s H Hs')).
  unfold last_val. rewrite (annotate_shape tp H).
  rewrite !lookup_app_skip by (apply Hf; simpl; tauto).
  split; reflexivity.
Qed.

(** On an annotated matrix, every ticker kept by "Above 2 std" is also kept
    by "Above std": the [std] column is never negative, so [2std >= std]. *)
Theorem above_2std_within_above_std : forall tp c,
  ticker_only tp ->
  In c (shown_cols Above2Std (annotate tp)) -> In c (shown_cols AboveStd (annotate tp)).
Proof.
  intros tp c H Hin. unfold shown_cols in *. apply filter_In in Hin.
  destruct Hin as [Hc Hs]. apply filter_In. split; [exact Hc|].
  unfold show in *. cbv zeta in Hs |- *. destruct (last_val_std_annotate tp H) as [E1 E2].
  rewrite E2, last_map_nan in Hs by reflexivity. rewrite E1.
  apply fgt_twice in Hs; [exact Hs| |].
  - destruct (last_in_or_default (row_stat nanstd tp) NaN) as [E|E].
    + rewrite E. discriminate.
    + revert E. generalize (last (row_stat nanstd tp) NaN). intros s0 E.
      unfold row_stat in E. apply in_map_iff in E. destruct E as [i [<- _]].
      apply nanstd_not_ninf.
  - intros r. destruct (last_in_or_default (row_stat nanstd tp) NaN) as [E|E].
    + rewrite E. discriminate.
    + revert E. generalize (last (row_stat nanstd tp) NaN). intros s0 E.
      unfold row_stat in E. apply in_map_iff in E. destruct E as [i [<- _]].
      apply nanstd_fin_nonneg.
Qed.

Lemma nanstd_equal_pair : nanstd [Fin 5; Fin 5] = Fin 0.
Proof.
  change [Fin 5; Fin 5] with (map Fin [5; 5]).
  rewrite (nanstd_finite [5; 5]) by (simpl; lia). f_equal.
  unfold sample_std_R, sum_R. simpl.
  replace ((0 + 5 + 5) / (1 + 1)) with 5 by field.
  replace (0 + (5 - 5) * (5 - 5) + (5 - 5) * (5 - 5)) with 0 by ring.
  unfold Rdiv. rewrite Rmult_0_l. apply sqrt_0.
Qed.

Lemma above_2std_within_above_std_witness :
  ticker_only (mkFrame 1 [("A.NS", [Fin 5]); ("B.NS", [Fin 5])]) /\
  In "A.NS" (shown_cols Above2Std (annotate (mkFrame 1 [("A.NS", [Fin 5]); ("B.NS", [Fin 5])]))) /\
  In "A.NS" (shown_cols AboveStd (annotate (mkFrame 1 [("A.NS", [Fin 5]); ("B.NS", [Fin 5])]))).
Proof.
  assert (H : ticker_only (mkFrame 1 [("A.NS", [Fin 5]); ("B.NS", [Fin 5])])).
  { intros x Hx. simpl in Hx. destruct Hx as [<-|[<-|[]]]; reflexivity. }
  assert (H2 : In "A.NS" (shown_cols Above2Std
                 (annotate (mkFrame 1 [("A.NS", [Fin 5]); ("B.NS", [Fin 5])])))).
  { assert (Hs : row_stat nanstd (mkFrame 1 [("A.NS", [Fin 5]); ("B.NS", [Fin 5])]) = [Fin 0]).
    { unfold row_stat. cbn [seq map nrows]. unfold row. cbn [map cols nth].
      rewrite nanstd_equal_pair. reflexivity. }
    rewrite (annotate_shape _ H), Hs. unfold shown_cols, stock_cols.
    cbn [cols map fst filter]. unfold show, last_val, lookup_col. cbn [cols find].
    simpl.
    destruct (Rlt_dec (2 * 0) 5) as [_|Hn]; [|lra]. simpl. left. reflexivity. }
  split; [exact H | split; [exact H2|]].
  exact (above_2std_within_above_std _ "A.NS" H H2).
Defined.

(** ** Row statistics *)

Lemma fold_Rplus_shift : forall xs a, fold_left Rplus xs a = a + fold_left Rplus xs 0.
Proof.
  induction xs as [|x xs IH]; intros a; simpl; [ring|].
  rewrite (IH (a + x)), (IH (0 + x)). ring.
Qed.

Lemma sum_R_bounds : forall xs lo hi,
  (forall x, In x xs -> lo <= x <= hi) ->
  INR (List.length xs) * lo <= sum_R xs <= INR (List.length xs) * hi.
Proof.
  unfold sum_R. induction xs as [|x xs IH]; intros lo hi H; [simpl; lra|].
  cbn [List.length fold_left]. rewrite fold_Rplus_shift, S_INR.
  specialize (IH lo hi (fun y Hy => H y (or_intror Hy))).
  specialize (H x (or_introl eq_refl)). lra.
Qed.

(** The row mean of present, finite values is their sum over their count,
    and lies between any lower and upper bound of the values. *)
Theorem nanmean_finite_bounds : forall xs lo hi,
  xs <> [] -> (forall x, In x xs -> lo <= x <= hi) ->
  nanmean (map Fin xs) = Fin (sum_R xs / INR (List.length xs)) /\
  lo <= sum_R xs / INR (List.length xs) <= hi.
Proof.
  intros xs lo hi Hne Hb.
  assert (Hn : 0 < INR (List.length xs))
    by (apply lt_0_INR; destruct xs; [congruence | simpl; lia]).
  split.
  - unfold nanmean. rewrite dropna_fin.
    destruct (map Fin xs) as [|y ys] eqn:E; [destruct xs; [congruence | discriminate]|].
    rewrite <- E, length_map. unfold fsum. rewrite fold_fadd_fin. simpl.
    destruct (Req_dec_T (INR (List.length xs)) 0); [lra | reflexivity].
  - destruct (sum_R_bounds xs lo hi Hb) as [H1 H2]. split.
    + apply Rmult_le_reg_r with (INR (List.length xs)); [exact Hn|].
      field_simplify; [lra | lra].
    + apply Rmult_le_reg_r with (INR (List.length xs)); [exact Hn|].
      field_simplify; [lra | lra].
Qed.

Lemma nanmean_finite_bounds_witness :
  [10; -10; 0] <> [] /\
  nanmean (map Fin [10; -10; 0]) = Fin (sum_R [10; -10; 0] / INR (List.length [10; -10; 0])).
Proof.
  split; [discriminate|].
  apply (nanmean_finite_bounds [10; -10; 0] (-10) 10); [discriminate|].
  intros x [<-|[<-|[<-|[]]]]; lra.
Defined.

Lemma insert_f_perm : forall x l, Permutation (insert_f x l) (x :: l).
Proof.
  intros x l. induction l as [|y l IH]; simpl; [reflexivity|].
  destruct (fle x y); [reflexivity|]. rewrite IH. apply perm_swap.
Qed.

Lemma sort_f_perm : forall l, Permutation (sort_f l) l.
Proof.
  induction l as [|x l IH]; simpl; [reflexivity|].
  rewrite insert_f_perm, IH. reflexivity.
Qed.

Lemma nth_sort_f_fin : forall xs k,
  (k < List.length xs)%nat -> exists x, In x xs /\ nth k (sort_f (map Fin xs)) NaN = Fin x.
Proof.
  intros xs k Hk.
  assert (Hl : List.length (sort_f (map Fin xs)) = List.length xs)
    by (rewrite (Permutation_length (sort_f_perm _)), length_map; reflexivity).
  assert (Hin : In (nth k (sort_f (map Fin xs)) NaN) (map Fin xs)).
  { apply (Permutation_in _ (sort_f_perm _)). apply nth_In. lia. }
  apply in_map_iff in Hin. destruct Hin as [x [E Hx]]. exists x. auto.
Qed.

(** The row median of present, finite values is a finite value lying
    between any lower and upper bound of the values. *)
Theorem nanmedian_finite_bounds : forall xs lo hi,
  xs <> [] -> (forall x, In x xs -> lo <= x <= hi) ->
  exists md, nanmedian (map Fin xs) = Fin md /\ lo <= md <= hi.
Proof.
  intros xs lo hi Hne Hb. unfold nanmedian. rewrite dropna_fin.
  assert (Hl : List.length (sort_f (map Fin xs)) = List.length xs)
    by (rewrite (Permutation_length (sort_f_perm _)), length_map; reflexivity).
  rewrite Hl.
  assert (Hpos : (0 < List.length xs)%nat) by (destruct xs; [congruence | simpl; lia]).
  destruct (List.length xs) as [|n] eqn:En; [lia|].
  assert (Hh : (S n / 2 < S n)%nat) by (apply Nat.div_lt; lia).
  rewrite <- En in Hh |- *.
  destruct (nth_sort_f_fin xs (List.length xs / 2) ltac:(lia)) as [a [Ha Ea]].
  destruct (Nat.odd (List.length xs)).
  - exists a. rewrite Ea. split; [reflexivity | apply Hb; exact Ha].
  - destruct (nth_sort_f_fin xs (List.length xs / 2 - 1) ltac:(lia)) as [b [Hb' Eb]].
    exists ((b + a) / 2). rewrite Ea, Eb. simpl.
    destruct (Req_dec_T 2 0); [lra|]. split; [reflexivity|].
    pose proof (Hb a Ha). pose proof (Hb b Hb'). lra.
Qed.

Lemma nanmedian_finite_bounds_witness :
  [10; -10; 0] <> [] /\
  exists md, nanmedian (map Fin [10; -10; 0]) = Fin md /\ -10 <= md <= 10.
Proof.
  split; [discriminate|].
  apply (nanmedian_finite_bounds [10; -10; 0] (-10) 10); [discriminate|].
  intros x [<-|[<-|[<-|[]]]]; lra.
Defined.

(** ** Sorting the stock list *)

(** After [fillna(0)] and the descending sort (lines 32-33), market caps are
    non-increasing along the list. *)
Theorem stock_list_descending : forall rows i j a b,
  (i < j)%nat ->
  nth_error (prepare_stock_list rows) i = Some a ->
  nth_error (prepare_stock_list rows) j = Some b ->
  snd b <= snd a.
Proof.
  intros rows i j a b Hij Ha Hb.
  exact (strongly_sorted_nth_error _ _ _ j i a b (sort_desc_sorted _) Hij Ha Hb).
Qed.

Lemma stock_list_descending_witness :
  nth_error (prepare_stock_list [("A", Some 5); ("B", Some 7)]) 0 = Some ("B", 7) /\
  nth_error (prepare_stock_list [("A", Some 5); ("B", Some 7)]) 1 = Some ("A", 5) /\
  5 <= 7.
Proof.
  assert (E : prepare_stock_list [("A", Some 5); ("B", Some 7)] = [("B", 7); ("A", 5)]).
  { unfold prepare_stock_list, fill_mcap, sort_desc. simpl.
    destruct (Rle_dec 7 5); [lra | reflexivity]. }
  assert (H0 : nth_error (prepare_stock_list [("A", Some 5); ("B", Some 7)]) 0 = Some ("B", 7))
    by (rewrite E; reflexivity).
  assert (H1 : nth_error (prepare_stock_list [("A", Some 5); ("B", Some 7)]) 1 = Some ("A", 5))
    by (rewrite E; reflexivity).
  split; [exact H0 | split; [exact H1|]].
  exact (stock_list_descending _ 0 1 ("B", 7) ("A", 5) ltac:(lia) H0 H1).
Defined.

(** ** A whole run on downloaded prices *)

Lemma total_pct_frame_names : forall m df,
  map fst (cols (total_pct_frame m df)) = map fst (cols df).
Proof.
  intros m df. unfold total_pct_frame, pct_frame, map_cols. simpl.
  rewrite !map_map. apply map_ext. intros [n c]. reflexivity.
Qed.

(** For a non-empty price frame whose columns are named [SYMBOL + ".NS"],
    the run shows exactly: the group table; the performance table, the last
    50 rows of the cumulative-return matrix followed by its four statistic
    columns, when and only when the checkbox is ticked; then one chart.  The
    chart draws, in column order, the price columns the filter keeps, then
    the Mean, Median, Std Dev and 2 Std Dev lines, which are the row-wise
    mean, median and std of the cumulative-return matrix and twice the std. *)
Theorem run_nonempty_chart : forall m price_df show_table filter_opt,
  frame_empty price_df = false ->
  (forall x, In x (map fst (cols price_df)) -> exists s, x = String.append s ".NS") ->
  let tp := total_pct_frame m price_df in
  let total_pct_df :=
    mkFrame (nrows price_df)
      (cols tp ++
       [("mean_pct_chg", row_stat nanmean tp);
        ("median_pct_change", row_stat nanmedian tp);
        ("std", row_stat nanstd tp);
        ("2std", map (fmul (Fin 2)) (row_stat nanstd tp))]) in
  run m price_df show_table filter_opt =
    (GroupTable ::
     (if show_table then [PerfTable (tail_rows 50 total_pct_df)] else []) ++
     [Chart (map (stock_trace total_pct_df)
                 (filter (show filter_opt total_pct_df) (map fst (cols price_df))) ++
             [mkTrace "Mean" (row_stat nanmean tp) (Dotted 3 "black");
              mkTrace "Median" (row_stat nanmedian tp) (Dotted 3 "blue");
              mkTrace "Std Dev" (row_stat nanstd tp) (Dotted 3 "red");
              mkTrace "2 Std Dev" (map (fmul (Fin 2)) (row_stat nanstd tp))
                (Dotted 3 "purple")])])%list.
Proof.
  intros m price_df show_table filter_opt He Hn. cbv zeta.
  assert (Ht : ticker_only (total_pct_frame m price_df)).
  { apply symbol_names_ticker_only. intros x Hx. apply Hn.
    rewrite total_pct_frame_names in Hx. exact Hx. }
  assert (Hf : forall s, In s stats_cols -> ~ In s (map fst (cols (total_pct_frame m price_df))))
    by (intros s Hs; exact (ticker_only_fresh _ s Ht Hs)).
  pose proof (stock_cols_annotate _ Ht) as Hsc.
  rewrite total_pct_frame_names in Hsc.
  unfold run. rewrite He. cbv zeta.
  unfold figure, shown_cols. rewrite Hsc. rewrite (annotate_shape _ Ht).
  f_equal. f_equal. f_equal. f_equal.
  unfold reference_traces, col_or_nil.
  rewrite !lookup_app_skip by (apply Hf; simpl; tauto). reflexivity.
Qed.

Lemma run_nonempty_chart_witness :
  frame_empty (mkFrame 2 [("A.NS", [Fin 100; Fin 110])]) = false /\
  (forall x, In x (map fst (cols (mkFrame 2 [("A.NS", [Fin 100; Fin 110])]))) ->
     exists s, x = String.append s ".NS") /\
  map (fun e => match e with GroupTable => 0%nat | Warning _ => 1%nat
                            | PerfTable _ => 2%nat | Chart _ => 3%nat end)
      (run Pad (mkFrame 2 [("A.NS", [Fin 100; Fin 110])]) true AllStocks) = [0; 2; 3]%nat.
Proof.
  assert (Hn : forall x, In x (map fst (cols (mkFrame 2 [("A.NS", [Fin 100; Fin 110])]))) ->
                 exists s, x = String.append s ".NS").
  { intros x Hx. simpl in Hx. destruct Hx as [<-|[]]. exists "A". reflexivity. }
  split; [reflexivity | split; [exact Hn|]].
  rewrite (run_nonempty_chart Pad (mkFrame 2 [("A.NS", [Fin 100; Fin 110])]) true AllStocks
             eq_refl Hn).
  reflexivity.
Defined.
